(** * Text classification with an embedding bag: the tutorial script

    A shallow embedding of [beginner_source/text_sentiment_ngrams_tutorial.py]:
    the text and label pipelines, the batch collator, the classification
    model, the train and evaluate passes, the epoch loop with its
    learning-rate schedule, and the final prediction.

    Conventions.
    - Python integers and the entries of int64 tensors are [Z]; where a
      tensor is built from Python integers the int64 range check is written
      out.
    - Tensors of floating-point numbers are lists (or index functions) over a
      scalar type [F] that is a parameter of the development (class
      [Scalar]): no law of arithmetic is assumed of it, so what is proved
      holds for any implementation of the operations.  Exact rationals [Q]
      give an executable instance.
    - A Python exception is [None]; code that can raise returns [option].
    - A string is a [str] of code points below 256, one character of the
      string for each; the character classes of Python that the script
      relies on are given on that range.  Texts with other characters are
      outside the model (a literal of this development that spells such a
      character stands for the characters of its encoding, not for the Python
      literal of the same spelling). *)

From Stdlib Require Import ZArith QArith Lia Lqa String Ascii List.
From stdpp Require Import base option list gmap strings.

Local Open Scope Z_scope.

(** ** Python built-ins used by the script *)

Module Py.

(** A value that reaches [int(x)]: the corpus yields integer labels, the
    tutorial text also applies the pipeline to a string. *)
Inductive value : Type :=
| Int (z : Z)
| Str (s : string).

(** [str.isspace] for one character, which is also the white space of
    [str.split] and of the pattern [\s]: tab to carriage return, the four
    separators 0x1c-0x1f, the blank, and the two blanks above ASCII, 0x85 and
    0xa0. *)
Definition is_space (a : ascii) : bool :=
  let n := Z.of_nat (nat_of_ascii a) in
  ((9 <=? n) && (n <=? 13)) || ((28 <=? n) && (n <=? 31)) || (n =? 32)
  || (n =? 133) || (n =? 160).

(** The white space that [int] drops around a literal: that of
    [str.isspace] without the four separators 0x1c-0x1f, which [int] takes for
    characters of the literal and refuses. *)
Definition is_int_space (a : ascii) : bool :=
  let n := Z.of_nat (nat_of_ascii a) in
  ((9 <=? n) && (n <=? 13)) || (n =? 32) || (n =? 133) || (n =? 160).

Definition is_digit (a : ascii) : bool :=
  let n := Z.of_nat (nat_of_ascii a) in (48 <=? n) && (n <=? 57).

Definition digit_val (a : ascii) : Z := Z.of_nat (nat_of_ascii a) - 48.

(** Drop the leading, and the leading and trailing, characters of the class
    [sp]. *)
Fixpoint lstrip (sp : ascii -> bool) (s : list ascii) : list ascii :=
  match s with
  | c :: r => if sp c then lstrip sp r else s
  | [] => []
  end.

Definition strip (sp : ascii -> bool) (s : list ascii) : list ascii :=
  rev (lstrip sp (rev (lstrip sp s))).

(** The digits of a decimal literal: at least one digit, and single
    underscores only between two digits.  [after_digit] says that the
    character just read was a digit. *)
Fixpoint int_digits (acc : Z) (after_digit : bool) (s : list ascii) : option Z :=
  match s with
  | [] => if after_digit then Some acc else None
  | c :: r =>
      if is_digit c then int_digits (10 * acc + digit_val c) true r
      else if Ascii.eqb c "_"%char then
        (if after_digit then int_digits acc false r else None)
      else None
  end.

(** [int(s)] for a string, base 10: surrounding white space is dropped, then
    an optional sign, then the digits; anything else is a [ValueError].  (The
    decimal digits below 256 are the ASCII ones.  The bound that interpreters
    from version 3.11 on put on the number of digits of a literal, 4300
    unless configured otherwise, is not part of the model.) *)
Definition int_of_str (s : string) : option Z :=
  match strip is_int_space (list_ascii_of_string s) with
  | c :: r =>
      if Ascii.eqb c "-"%char then Z.opp <$> int_digits 0 false r
      else if Ascii.eqb c "+"%char then int_digits 0 false r
      else int_digits 0 false (c :: r)
  | [] => None
  end.

(** [int(x)] *)
Definition int (x : value) : option Z :=
  match x with
  | Int z => Some z
  | Str s => int_of_str s
  end.

(** [str.lower] for one character: the capital letters, A to Z and, above
    ASCII, 0xc0 to 0xde without the multiplication sign 0xd7, move up by
    32. *)
Definition lower_char (a : ascii) : ascii :=
  let n := nat_of_ascii a in
  if (((65 <=? n) && (n <=? 90)) || ((192 <=? n) && (n <=? 222) && negb (n =? 215)))%nat
  then ascii_of_nat (n + 32) else a.

Definition lower (s : list ascii) : list ascii := map lower_char s.

(** [str.split()] with no argument: the maximal runs of characters that are
    not white space.  [cur] is the run being read, reversed. *)
Fixpoint split_go (cur : list ascii) (s : list ascii) : list (list ascii) :=
  match s with
  | [] => match cur with [] => [] | _ => [rev cur] end
  | c :: r =>
      if is_space c
      then match cur with [] => split_go [] r | _ => rev cur :: split_go [] r end
      else split_go (c :: cur) r
  end.

Definition split (s : list ascii) : list (list ascii) := split_go [] s.

(** [range(a, b)] *)
Definition range (a b : Z) : list Z := seqZ a (b - a).

End Py.

(** ** The int64 tensors the collator builds *)

Definition int64_min : Z := - 2 ^ 63.
Definition int64_max : Z := 2 ^ 63 - 1.

Definition fits_int64 (z : Z) : bool := (int64_min <=? z) && (z <=? int64_max).

(** [torch.tensor(l, dtype=torch.int64)] for a list of Python integers: an
    integer outside the int64 range raises. *)
Definition tensor_int64 (l : list Z) : option (list Z) :=
  if forallb fits_int64 l then Some l else None.

(** [t.cumsum(dim=0)] of a one-dimensional tensor: the running sums. *)
Fixpoint cumsum_from (acc : Z) (l : list Z) : list Z :=
  match l with
  | [] => []
  | x :: r => (acc + x) :: cumsum_from (acc + x) r
  end.

Definition cumsum (l : list Z) : list Z := cumsum_from 0 l.

(** [torch.cat(ts)] of one-dimensional tensors: an empty list of tensors
    raises. *)
Definition torch_cat (ts : list (list Z)) : option (list Z) :=
  match ts with
  | [] => None
  | _ => Some (concat ts)
  end.

(** [l[:-1]] *)
Definition but_last {A} (l : list A) : list A := take (length l - 1)%nat l.

(** ** The text library: tokenizer and vocabulary *)

Module Torchtext.

(** Replace every occurrence of the character [c] by [r]. *)
Definition replace_char (c : ascii) (r : list ascii) (s : list ascii) : list ascii :=
  flat_map (fun a => if Ascii.eqb a c then r else [a]) s.

Fixpoint is_prefix (p s : list ascii) : bool :=
  match p, s with
  | [], _ => true
  | a :: p', b :: s' => Ascii.eqb a b && is_prefix p' s'
  | _ :: _, [] => false
  end.

(** Replace the occurrences of the non-empty string [pat], leftmost first
    and without overlap, by [r].  [skip] counts the characters of a match
    that are still to be dropped. *)
Fixpoint replace_sub_go (pat r : list ascii) (skip : nat) (s : list ascii) : list ascii :=
  match s with
  | [] => []
  | c :: s' =>
      match skip with
      | S k => replace_sub_go pat r k s'
      | O =>
          if is_prefix pat s
          then r ++ replace_sub_go pat r (length pat - 1)%nat s'
          else c :: replace_sub_go pat r O s'
      end
  end.

Definition replace_sub (pat r : list ascii) (s : list ascii) : list ascii :=
  replace_sub_go pat r O s.

(** Replace every maximal run of white space by one blank (the pattern
    [\s+]).  [in_run] says that the previous character was white space. *)
Fixpoint collapse_spaces (in_run : bool) (s : list ascii) : list ascii :=
  match s with
  | [] => []
  | c :: r =>
      if Py.is_space c
      then (if in_run then collapse_spaces true r else " "%char :: collapse_spaces true r)
      else c :: collapse_spaces false r
  end.

Definition chars (s : string) : list ascii := list_ascii_of_string s.

(** Modelled from the spec: the tokenizer is the text library's
    [get_tokenizer('basic_english')], which is not under src/; the spec
    describes it as splitting raw text into a sequence of lowercase word
    tokens.  The model follows the library's normalisation: lowercase the
    line, apply the twelve substitutions in order (quote, double quote, full
    stop, the line-break tag, comma, the two parentheses, exclamation and
    question mark, semicolon, colon, runs of white space), then split on
    white space. *)
Definition basic_english (line : string) : list string :=
  let s := Py.lower (chars line) in
  let s := replace_char "'"%char (chars " '  ") s in
  let s := replace_char (ascii_of_nat 34) [] s in
  let s := replace_char "."%char (chars " . ") s in
  let s := replace_sub (chars "<br />") (chars " ") s in
  let s := replace_char ","%char (chars " , ") s in
  let s := replace_char "("%char (chars " ( ") s in
  let s := replace_char ")"%char (chars " ) ") s in
  let s := replace_char "!"%char (chars " ! ") s in
  let s := replace_char "?"%char (chars " ? ") s in
  let s := replace_char ";"%char (chars " ") s in
  let s := replace_char ":"%char (chars " ") s in
  let s := collapse_spaces false s in
  map string_of_list_ascii (Py.split s).

(** The vocabulary object: the tokens by index, the index of each token, and
    the index returned for a token that is absent (unset at first). *)
Record Vocab : Type := {
  itos : list string;
  stoi : gmap string Z;
  default_index : option Z
}.

(** The index map of a list of tokens, the first token at index [i]. *)
Fixpoint stoi_of (i : Z) (tokens : list string) : gmap string Z :=
  match tokens with
  | [] => ∅
  | t :: r => <[t := i]> (stoi_of (i + 1) r)
  end.

(** The constructor: token [k] of the list gets index [k]. *)
Definition vocab_of_tokens (tokens : list string) : Vocab :=
  {| itos := tokens; stoi := stoi_of 0 tokens; default_index := None |}.

(** [len(vocab)] *)
Definition len (v : Vocab) : Z := Z.of_nat (length (itos v)).

(** [vocab[token]]: the index of the token, the default index when the token
    is absent, and a [RuntimeError] when no default index is set. *)
Definition getitem (v : Vocab) (token : string) : option Z :=
  match stoi v !! token with
  | Some i => Some i
  | None => default_index v
  end.

(** [vocab.set_default_index(index)] *)
Definition set_default_index (v : Vocab) (index : Z) : Vocab :=
  {| itos := itos v; stoi := stoi v; default_index := Some index |}.

(** [vocab(tokens)]: the indices of a list of tokens. *)
Definition lookup_indices (v : Vocab) (tokens : list string) : option (list Z) :=
  mapM (getitem v) tokens.

(** [Counter.update(tokens)] *)
Definition counter_update (c : gmap string nat) (tokens : list string) : gmap string nat :=
  foldl (fun c t => <[t := S (default O (c !! t))]> c) c tokens.

(** The order of the vocabulary: by descending frequency, then by the token. *)
Definition freq_before (x y : string * nat) : bool :=
  (y.2 <? x.2)%nat || ((x.2 =? y.2)%nat && String.leb x.1 y.1).

Fixpoint insert_by_freq (x : string * nat) (l : list (string * nat)) : list (string * nat) :=
  match l with
  | [] => [x]
  | y :: r => if freq_before x y then x :: l else y :: insert_by_freq x r
  end.

Definition sort_by_freq (l : list (string * nat)) : list (string * nat) :=
  foldr insert_by_freq [] l.

Definition is_special (specials : list string) (t : string) : bool :=
  existsb (String.eqb t) specials.

(** Modelled from the spec: [build_vocab_from_iterator] is the text
    library's and not under src/.  The spec's Vocabulary Builder: the special
    tokens get the indices [0..k-1] in the order given, then every remaining
    distinct token the next index; the library orders the remaining tokens by
    descending frequency, then by the token, and keeps those seen at least
    [min_freq] times. *)
Definition build_vocab_from_iterator
    (iterator : list (list string)) (min_freq : nat) (specials : list string) : Vocab :=
  let counter := foldl counter_update ∅ iterator in
  let sorted := sort_by_freq (map_to_list counter) in
  let ordered := filter (fun p => is_special specials p.1 = false) sorted in
  let tokens := map fst (filter (fun p => (min_freq <= p.2)%nat) ordered) in
  vocab_of_tokens (specials ++ tokens).

End Torchtext.

(** ** The data processing pipelines *)

(** [tokenizer = get_tokenizer('basic_english')] *)
Definition tokenizer : string -> list string := Torchtext.basic_english.

(** A sample of the corpus: a label and a text. *)
Abbreviation Sample := (Py.value * string)%type.

Definition yield_tokens (data_iter : list Sample) : list (list string) :=
  map (fun '(_, text) => tokenizer text) data_iter.

(** [vocab = build_vocab_from_iterator(yield_tokens(train_iter),
    specials=["<unk>"])] followed by
    [vocab.set_default_index(vocab["<unk>"])], for the training corpus
    [train_iter]. *)
Definition vocab (train_iter : list Sample) : option Torchtext.Vocab :=
  let v := Torchtext.build_vocab_from_iterator (yield_tokens train_iter) 1 ["<unk>"%string] in
  i ← Torchtext.getitem v "<unk>";
  Some (Torchtext.set_default_index v i).

(** [text_pipeline = lambda x: vocab(tokenizer(x))] *)
Definition text_pipeline (v : Torchtext.Vocab) (x : string) : option (list Z) :=
  Torchtext.lookup_indices v (tokenizer x).

(** [label_pipeline = lambda x: int(x) - 1] *)
Definition label_pipeline (x : Py.value) : option Z :=
  z ← Py.int x; Some (z - 1).

(** ** The batch collator *)

(** One turn of the loop of [collate_batch].  The token indices come from the
    vocabulary and are int64 already; the labels are Python integers. *)
Definition collate_step (v : Torchtext.Vocab)
    (acc : list Z * list (list Z) * list Z) (s : Sample)
  : option (list Z * list (list Z) * list Z) :=
  let '(label_list, text_list, offsets) := acc in
  let '(_label, _text) := s in
  l ← label_pipeline _label;
  processed_text ← text_pipeline v _text;
  Some (label_list ++ [l], text_list ++ [processed_text],
        offsets ++ [Z.of_nat (length processed_text)]).

Fixpoint collate_loop (v : Torchtext.Vocab)
    (acc : list Z * list (list Z) * list Z) (batch : list Sample)
  : option (list Z * list (list Z) * list Z) :=
  match batch with
  | [] => Some acc
  | s :: rest => acc' ← collate_step v acc s; collate_loop v acc' rest
  end.

(** [collate_batch(batch)]: the labels, the concatenated token indices and the
    offsets of a batch. *)
Definition collate_batch (v : Torchtext.Vocab) (batch : list Sample)
  : option (list Z * list Z * list Z) :=
  '(label_list, text_list, offsets) ← collate_loop v ([], [], [0]) batch;
  label_list ← tensor_int64 label_list;
  let offsets := cumsum (but_last offsets) in
  text_list ← torch_cat text_list;
  Some (label_list, text_list, offsets).

(** ** Scalars *)

(** The arithmetic of tensor entries and of Python floats.  [f_of_Z] is the
    conversion of an integer, [fltb x y] the comparison [x < y]. *)
Class Scalar (F : Type) : Type := {
  fzero : F;
  fadd : F -> F -> F;
  fsub : F -> F -> F;
  fmul : F -> F -> F;
  fdiv : F -> F -> F;
  fopp : F -> F;
  f_of_Z : Z -> F;
  fltb : F -> F -> bool
}.

(** Exact rationals. *)
#[export] Instance Q_Scalar : Scalar Q := {|
  fzero := 0%Q;
  fadd := Qplus;
  fsub := Qminus;
  fmul := Qmult;
  fdiv := Qdiv;
  fopp := Qopp;
  f_of_Z := inject_Z;
  fltb := fun x y => negb (Qle_bool y x)
|}.

(** ** The classification model *)

(** The gradients of the three parameter tensors. *)
Record Grads (F : Type) : Type := {
  g_embedding : nat -> nat -> F;
  g_fc_weight : nat -> nat -> F;
  g_fc_bias : nat -> F
}.
Arguments g_embedding {F} _ _ _.
Arguments g_fc_weight {F} _ _ _.
Arguments g_fc_bias {F} _ _.

(** [TextClassificationModel]: an
    [nn.EmbeddingBag(vocab_size, embed_dim, sparse=True)] and an
    [nn.Linear(embed_dim, num_class)].  A tensor is its shape and its
    entries by index: [embedding_weight t k] for [t < vocab_size] and
    [k < embed_dim], [fc_weight j k] for [j < num_class] and [k < embed_dim],
    [fc_bias j] for [j < num_class].  [grad] is the gradient the parameters
    hold ([None] after [zero_grad]), [training] the mode of the module.
    [sparse=True] changes no value: it makes the gradient of the embedding
    table a sparse tensor, which matters where the gradient is clipped (see
    [Autograd]). *)
Record TextClassificationModel (F : Type) : Type := {
  vocab_size : nat;
  embed_dim : nat;
  num_class : nat;
  embedding_weight : nat -> nat -> F;
  fc_weight : nat -> nat -> F;
  fc_bias : nat -> F;
  grad : option (Grads F);
  training : bool
}.
Arguments vocab_size {F} _.
Arguments embed_dim {F} _.
Arguments num_class {F} _.
Arguments embedding_weight {F} _ _ _.
Arguments fc_weight {F} _ _ _.
Arguments fc_bias {F} _ _.
Arguments grad {F} _.
Arguments training {F} _.

(** A batch as the collator returns it: labels, token indices, offsets. *)
Abbreviation Batch := (list Z * list Z * list Z)%type.

(** What the script leaves to the tensor library: the gradient of the
    cross-entropy loss of a batch with respect to the parameters
    ([loss.backward()]), and [clip_grad_norm_] with its maximal norm.

    [clip_grad_norm_] can raise.  The embedding is created with
    [sparse=True], so the gradient [train] asks it to clip has a sparse
    part, and it is the library that decides whether it clips such a
    gradient: version 1.13 does, versions 2.0 and 2.3 raise an exception
    instead.  The script does not decide which of the two happens;
    [clip_grad_norm] is therefore a partial function here, and the
    statements about a training pass that returns say so when they need it
    to accept the gradient. *)
Class Autograd (F : Type) : Type := {
  loss_grad : TextClassificationModel F -> Batch -> Grads F;
  clip_grad_norm : Grads F -> F -> option (Grads F)
}.

Section Model.
Context {F : Type} `{Scalar F}.

Definition set_training (b : bool) (m : TextClassificationModel F) : TextClassificationModel F :=
  {| vocab_size := vocab_size m; embed_dim := embed_dim m; num_class := num_class m;
     embedding_weight := embedding_weight m; fc_weight := fc_weight m;
     fc_bias := fc_bias m; grad := grad m; training := b |}.

Definition set_grad (g : option (Grads F)) (m : TextClassificationModel F) : TextClassificationModel F :=
  {| vocab_size := vocab_size m; embed_dim := embed_dim m; num_class := num_class m;
     embedding_weight := embedding_weight m; fc_weight := fc_weight m;
     fc_bias := fc_bias m; grad := g; training := training m |}.

(** Modelled from the spec: [uniform_] is the tensor library's and not
    under src/; the spec has the weights drawn uniformly from a fixed
    symmetric range.  [t.uniform_(from, to)] on a tensor with [cols] columns:
    entry [(i, k)] is [u * (to - from) + from] for the next sample [u] of the
    generator, where [draws] lists the samples of the unit interval the
    generator yields, in the order of the entries.  (For the range of the
    script, from -0.5 to 0.5, and a sample that is a multiple of a power of
    two below one, this sum is exact in binary floating point.) *)
Definition uniform_ (from to : F) (cols : nat) (draws : nat -> F) : nat -> nat -> F :=
  fun i k => fadd (fmul (draws (i * cols + k)%nat) (fsub to from)) from.

(** [init_weights]: [initrange = 0.5]; the two weight tensors are refilled
    from the generator, the embedding table first, and the bias is zeroed. *)
Definition init_weights (draws : nat -> F) (m : TextClassificationModel F)
  : TextClassificationModel F :=
  let initrange := fdiv (f_of_Z 1) (f_of_Z 2) in
  let n_emb := (vocab_size m * embed_dim m)%nat in
  {| vocab_size := vocab_size m; embed_dim := embed_dim m; num_class := num_class m;
     embedding_weight := uniform_ (fopp initrange) initrange (embed_dim m) draws;
     fc_weight := uniform_ (fopp initrange) initrange (embed_dim m)
                    (fun n => draws (n_emb + n)%nat);
     fc_bias := fun _ => fzero;
     grad := grad m; training := training m |}.

(** [TextClassificationModel(vocab_size, embed_dim, num_class)]: the values
    the two layers are created with are all overwritten by [init_weights]. *)
Definition new_model (vocab_size embed_dim num_class : nat) (draws : nat -> F)
  : TextClassificationModel F :=
  init_weights draws
    {| vocab_size := vocab_size; embed_dim := embed_dim; num_class := num_class;
       embedding_weight := fun _ _ => fzero; fc_weight := fun _ _ => fzero;
       fc_bias := fun _ => fzero; grad := None; training := true |}.

(** The bags of a flat token tensor: bag [i] runs from [offsets[i]] to the
    next offset, the last one to the end of the tensor. *)
Definition bag_bounds (offsets : list Z) (n : Z) : list (Z * Z) :=
  zip offsets (drop 1 offsets ++ [n]).

Definition bag (text : list Z) (b : Z * Z) : list Z :=
  take (Z.to_nat (b.2 - b.1)) (drop (Z.to_nat b.1) text).

(** The arguments the embedding bag refuses: an index outside the table, a
    first offset other than 0, a last offset beyond the input. *)
Definition offsets_ok (offsets : list Z) (n : Z) : bool :=
  match offsets with
  | [] => true
  | o :: _ => (o =? 0) && (List.last offsets 0 <=? n)
  end.

Definition index_ok (m : TextClassificationModel F) (t : Z) : bool :=
  (0 <=? t) && (t <? Z.of_nat (vocab_size m)).

(** The mean of the embedding vectors of a bag; the zero vector for an
    empty bag. *)
Definition bag_mean (m : TextClassificationModel F) (tokens : list Z) : list F :=
  map (fun k =>
         match tokens with
         | [] => fzero
         | _ => fdiv (foldl (fun acc t => fadd acc (embedding_weight m (Z.to_nat t) k))
                        fzero tokens)
                  (f_of_Z (Z.of_nat (length tokens)))
         end)
      (seq 0 (embed_dim m)).

(** Modelled from the spec: [nn.EmbeddingBag] in its default mode (mean) is
    the tensor library's and not under src/.  The spec: for each sample
    delimited by consecutive offsets, the arithmetic mean of the embedding
    vectors of its tokens; a sample with zero tokens gives the zero vector,
    as the library documents for empty bags. *)
Definition embedding_bag (m : TextClassificationModel F) (text offsets : list Z)
  : option (list (list F)) :=
  if forallb (index_ok m) text && offsets_ok offsets (Z.of_nat (length text))
  then Some (map (fun b => bag_mean m (bag text b))
               (bag_bounds offsets (Z.of_nat (length text))))
  else None.

(** [nn.Linear]: [x W^T + b] for one row [x]. *)
Definition linear (m : TextClassificationModel F) (x : list F) : list F :=
  map (fun j =>
         fadd (foldl fadd fzero (imap (fun k xk => fmul xk (fc_weight m j k)) x))
              (fc_bias m j))
      (seq 0 (num_class m)).

(** [forward(text, offsets)] *)
Definition forward (m : TextClassificationModel F) (text offsets : list Z)
  : option (list (list F)) :=
  embedded ← embedding_bag m text offsets;
  Some (map (linear m) embedded).

(** [row.argmax()]: the index of the first maximal entry; an empty row
    raises. *)
Fixpoint argmax_go (best : nat) (best_val : F) (i : nat) (l : list F) : nat :=
  match l with
  | [] => best
  | x :: r => if fltb best_val x then argmax_go i x (S i) r
              else argmax_go best best_val (S i) r
  end.

Definition argmax (row : list F) : option Z :=
  match row with
  | [] => None
  | x :: r => Some (Z.of_nat (argmax_go 0 x 1 r))
  end.

(** [t.argmax(1)] *)
Definition argmax1 (t : list (list F)) : option (list Z) := mapM argmax t.

(** [criterion = torch.nn.CrossEntropyLoss()], as far as it can raise: the
    targets are as many as the rows, and each is a class index or the
    ignored index -100.  The value of the loss enters the model only through
    [loss_grad]. *)
Definition target_ok (classes : nat) (l : Z) : bool :=
  ((0 <=? l) && (l <? Z.of_nat classes)) || (l =? -100).

Definition criterion (m : TextClassificationModel F) (predicted : list (list F)) (label : list Z)
  : option unit :=
  if (length predicted =? length label)%nat && forallb (target_ok (num_class m)) label
  then Some tt else None.

(** [(predicted.argmax(1) == label).sum().item()] *)
Definition count_correct (pred label : list Z) : Z :=
  Z.of_nat (length (filter (fun p => p.1 = p.2) (zip pred label))).

End Model.

(** ** Training and evaluation *)

(** A loop whose body can raise. *)
Fixpoint for_each {S A : Type} (body : S -> A -> option S) (s : S) (l : list A) : option S :=
  match l with
  | [] => Some s
  | x :: r => s' ← body s x; for_each body s' r
  end.

(** [enumerate(l)] *)
Definition enumerate {A : Type} (l : list A) : list (Z * A) :=
  imap (fun i x => (Z.of_nat i, x)) l.

(** The lines the script prints (times are left out). *)
Inductive Line (F : Type) : Type :=
| Progress (epoch idx batches : Z) (accuracy : F)
| EndOfEpoch (epoch : Z) (accu_val : F)
| TestAccuracy (accu_test : F)
| Prediction (category : string).
Arguments Progress {F} _ _ _ _.
Arguments EndOfEpoch {F} _ _.
Arguments TestAccuracy {F} _.
Arguments Prediction {F} _.

Section Training.
Context {F : Type} `{Scalar F} `{Autograd F}.

(** [optimizer.zero_grad()] *)
Definition zero_grad (m : TextClassificationModel F) : TextClassificationModel F :=
  set_grad None m.

Definition grads_add (a b : Grads F) : Grads F :=
  {| g_embedding := fun i k => fadd (g_embedding a i k) (g_embedding b i k);
     g_fc_weight := fun j k => fadd (g_fc_weight a j k) (g_fc_weight b j k);
     g_fc_bias := fun j => fadd (g_fc_bias a j) (g_fc_bias b j) |}.

(** [loss.backward()]: the gradient of the loss is added to the gradient
    the parameters hold. *)
Definition backward (m : TextClassificationModel F) (b : Batch) : TextClassificationModel F :=
  let g := loss_grad m b in
  set_grad (Some (match grad m with None => g | Some g0 => grads_add g0 g end)) m.

(** [torch.nn.utils.clip_grad_norm_(model.parameters(), 0.1)]: the
    gradient the parameters hold is replaced by the clipped one; parameters
    without a gradient are left alone.  It raises when the library refuses
    the gradient. *)
Definition clip_grads (m : TextClassificationModel F) : option (TextClassificationModel F) :=
  match grad m with
  | Some g =>
      g' ← clip_grad_norm g (fdiv (f_of_Z 1) (f_of_Z 10));
      Some (set_grad (Some g') m)
  | None => Some m
  end.

(** [optimizer.step()] of plain stochastic gradient descent: each parameter
    that holds a gradient moves by [- lr * gradient]. *)
Definition optimizer_step (lr : F) (m : TextClassificationModel F) : TextClassificationModel F :=
  match grad m with
  | None => m
  | Some g =>
      {| vocab_size := vocab_size m; embed_dim := embed_dim m; num_class := num_class m;
         embedding_weight := fun t k => fsub (embedding_weight m t k) (fmul lr (g_embedding g t k));
         fc_weight := fun j k => fsub (fc_weight m j k) (fmul lr (g_fc_weight g j k));
         fc_bias := fun j => fsub (fc_bias m j) (fmul lr (g_fc_bias g j));
         grad := grad m; training := training m |}
  end.

(** The local state of [train]: the model, the running counts, the lines
    printed so far, and the number of optimizer steps made so far (which the
    script does not keep; it is counted here to tell how far a pass went). *)
Record TrainState : Type := {
  t_model : TextClassificationModel F;
  t_total_acc : Z;
  t_total_count : Z;
  t_out : list (Line F);
  t_steps : nat
}.

Definition log_interval : Z := 500.

(** The body of the loop of [train], for batch number [idx]. *)
Definition train_batch (epoch batches : Z) (lr : F) (st : TrainState) (ib : Z * Batch)
  : option TrainState :=
  let '(idx, (label, text, offsets)) := ib in
  let m := zero_grad (t_model st) in
  predited_label ← forward m text offsets;
  _ ← criterion m predited_label label;
  let m := backward m (label, text, offsets) in
  m ← clip_grads m;
  let m := optimizer_step lr m in
  pred ← argmax1 predited_label;
  let total_acc := t_total_acc st + count_correct pred label in
  let total_count := t_total_count st + Z.of_nat (length label) in
  if (idx mod log_interval =? 0) && (0 <? idx) then
    if total_count =? 0 then None
    else Some {| t_model := m; t_total_acc := 0; t_total_count := 0;
                 t_out := t_out st ++
                   [Progress epoch idx batches (fdiv (f_of_Z total_acc) (f_of_Z total_count))];
                 t_steps := S (t_steps st) |}
  else Some {| t_model := m; t_total_acc := total_acc; t_total_count := total_count;
               t_out := t_out st; t_steps := S (t_steps st) |}.

(** [train(dataloader)], in epoch [epoch] and with the learning rate [lr] of
    the optimizer: the trained model, the lines printed and the number of
    optimizer steps made. *)
Definition train (epoch : Z) (lr : F) (m : TextClassificationModel F) (dataloader : list Batch)
  : option (TextClassificationModel F * list (Line F) * nat) :=
  st ← for_each (train_batch epoch (Z.of_nat (length dataloader)) lr)
         {| t_model := set_training true m; t_total_acc := 0; t_total_count := 0;
            t_out := []; t_steps := O |}
         (enumerate dataloader);
  Some (t_model st, t_out st, t_steps st).

(** The body of the loop of [evaluate]: the counts after one more batch. *)
Definition evaluate_batch (m : TextClassificationModel F) (acc : Z * Z) (ib : Z * Batch)
  : option (Z * Z) :=
  let '(total_acc, total_count) := acc in
  let '(idx, (label, text, offsets)) := ib in
  predited_label ← forward m text offsets;
  _ ← criterion m predited_label label;
  pred ← argmax1 predited_label;
  Some (total_acc + count_correct pred label, total_count + Z.of_nat (length label)).

(** [evaluate(dataloader)]: the accuracy, and the model as the call leaves
    it.  The division raises when no sample was counted. *)
Definition evaluate (m : TextClassificationModel F) (dataloader : list Batch)
  : option (F * TextClassificationModel F) :=
  let m := set_training false m in
  '(total_acc, total_count) ← for_each (evaluate_batch m) (0, 0) (enumerate dataloader);
  if total_count =? 0 then None
  else Some (fdiv (f_of_Z total_acc) (f_of_Z total_count), m).

(** ** The learning-rate schedule *)

(** [torch.optim.lr_scheduler.StepLR(optimizer, step_size, gamma)] *)
Record StepLR : Type := {
  step_size : Z;
  gamma : F;
  last_epoch : Z
}.

(** [scheduler.step()]: one more epoch is counted, and the learning rate is
    multiplied by [gamma] when the count is a non-zero multiple of
    [step_size].  The new scheduler and the new learning rate. *)
Definition scheduler_step (s : StepLR) (lr : F) : StepLR * F :=
  let e := last_epoch s + 1 in
  let s' := {| step_size := step_size s; gamma := gamma s; last_epoch := e |} in
  if (e =? 0) || negb (e mod step_size s =? 0) then (s', lr)
  else (s', fmul lr (gamma s)).

(** ** The epoch loop *)

Definition EPOCHS : Z := 10.
Definition LR : F := f_of_Z 5.
Definition BATCH_SIZE : Z := 64.

(** The state of the script during the epoch loop: the model, the learning
    rate of the optimizer, the scheduler, the best validation accuracy and
    the lines printed. *)
Record Script : Type := {
  model : TextClassificationModel F;
  lr : F;
  scheduler : StepLR;
  total_accu : option F;
  stdout : list (Line F)
}.

(** The script before the loop: [optimizer = SGD(model.parameters(), lr=LR)],
    [scheduler = StepLR(optimizer, 1.0, gamma=0.1)], [total_accu = None]. *)
Definition script_init (m : TextClassificationModel F) : Script :=
  {| model := m; lr := LR;
     scheduler := {| step_size := 1; gamma := fdiv (f_of_Z 1) (f_of_Z 10); last_epoch := 0 |};
     total_accu := None; stdout := [] |}.

(** The end of an epoch: the scheduler steps when the best accuracy is
    greater than the accuracy of this epoch, else this accuracy is kept. *)
Definition end_of_epoch (s : StepLR) (lr : F) (total_accu : option F) (accu_val : F)
  : StepLR * F * option F :=
  match total_accu with
  | Some best =>
      if fltb accu_val best
      then (scheduler_step s lr, total_accu)
      else (s, lr, Some accu_val)
  | None => (s, lr, Some accu_val)
  end.

(** The body of the epoch loop.  [train_dataloader epoch] and
    [valid_dataloader epoch] are the batches the two (shuffling) loaders
    yield in that epoch. *)
Definition epoch_body (train_dataloader valid_dataloader : Z -> list Batch)
    (st : Script) (epoch : Z) : option Script :=
  '(m, lines, steps) ← train epoch (lr st) (model st) (train_dataloader epoch);
  '(accu_val, m) ← evaluate m (valid_dataloader epoch);
  let '(s, lr', best) := end_of_epoch (scheduler st) (lr st) (total_accu st) accu_val in
  Some {| model := m; lr := lr'; scheduler := s; total_accu := best;
          stdout := stdout st ++ lines ++ [EndOfEpoch epoch accu_val] |}.

(** [for epoch in range(1, EPOCHS + 1): ...] *)
Definition epoch_loop (train_dataloader valid_dataloader : Z -> list Batch) (st : Script)
  : option Script :=
  for_each (epoch_body train_dataloader valid_dataloader) st (Py.range 1 (EPOCHS + 1)).

(** ** Prediction *)

(** [predict(text, text_pipeline)].  [torch.tensor] of an empty list is a
    float tensor, which the embedding bag refuses as indices. *)
Definition predict (m : TextClassificationModel F) (v : Torchtext.Vocab) (text : string)
  : option Z :=
  tokens ← text_pipeline v text;
  match tokens with
  | [] => None
  | _ =>
      output ← forward m tokens [0];
      match output with
      | [row] => i ← argmax row; Some (i + 1)
      | _ => None
      end
  end.

End Training.

Definition ag_news_label : gmap Z string :=
  {[ 1 := "World"; 2 := "Sports"; 3 := "Business"; 4 := "Sci/Tec" ]}%string.

(** The last line of the script: the category of the predicted label; a
    label that is no key of the dictionary raises. *)
Definition final_print {F : Type} `{Scalar F}
    (m : TextClassificationModel F) (v : Torchtext.Vocab) (text : string) : option (Line F) :=
  p ← predict m v text;
  name ← ag_news_label !! p;
  Some (Prediction name).

(** The script from the epoch loop on: the epochs, the accuracy on the test
    loader, and the prediction for the example text. *)
Definition main {F : Type} `{Scalar F} `{Autograd F}
    (m : TextClassificationModel F) (v : Torchtext.Vocab)
    (train_dataloader valid_dataloader : Z -> list Batch) (test_dataloader : list Batch)
    (ex_text_str : string) : option (list (Line F)) :=
  st ← epoch_loop train_dataloader valid_dataloader (script_init m);
  '(accu_test, m') ← evaluate (model st) test_dataloader;
  line ← final_print m' v ex_text_str;
  Some (stdout st ++ [TestAccuracy accu_test; line]).

(** ** Notions the statements use *)

(** The sum of a list of integers. *)
Definition total (l : list Z) : Z := foldr Z.add 0 l.

(** The token counts of the encoded samples of a batch. *)
Definition token_counts (encoded : list (list Z)) : list Z :=
  map (fun e => Z.of_nat (length e)) encoded.

Fixpoint nondecreasing (l : list Z) : bool :=
  match l with
  | x :: r => match r with
              | y :: _ => (x <=? y) && nondecreasing r
              | [] => true
              end
  | [] => true
  end.

(** A batch the model and the loss accept: every token index is inside the
    embedding table, the offsets start at 0, do not decrease and stay inside
    the token tensor, there is one label per offset and at least one, every
    label is a class index (or the ignored index), and there is a class. *)
Definition batch_ok {F : Type} (m : TextClassificationModel F) (b : Batch) : bool :=
  let '(label, text, offsets) := b in
  forallb (index_ok m) text
  && offsets_ok offsets (Z.of_nat (length text))
  && nondecreasing offsets
  && (length offsets =? length label)%nat
  && forallb (target_ok (num_class m)) label
  && negb (length label =? 0)%nat
  && (0 <? num_class m)%nat.

(** The class predicted for each sample of a batch. *)
Definition predictions {F : Type} `{Scalar F} (m : TextClassificationModel F) (b : Batch)
  : option (list Z) :=
  let '(_, text, offsets) := b in
  logits ← forward m text offsets; argmax1 logits.

(** The scheduler of the script: step size 1, factor 0.1, and a count of
    epochs that is not negative. *)
Definition scheduler_inv {F : Type} `{Scalar F} (s : StepLR (F := F)) : Prop :=
  step_size s = 1 /\ gamma s = fdiv (f_of_Z 1) (f_of_Z 10) /\ 0 <= last_epoch s.

(** The number of samples of a batch, and the number of them whose
    predicted class is their label. *)
Definition sample_count (b : Batch) : Z := Z.of_nat (length b.1.1).

Definition correct_count {F : Type} `{Scalar F} (m : TextClassificationModel F) (b : Batch) : Z :=
  match predictions m b with
  | Some pred => count_correct pred b.1.1
  | None => 0
  end.

(** The validation accuracies the script has printed, in order. *)
Definition validation_accuracies {F : Type} (out : list (Line F)) : list F :=
  flat_map (fun line => match line with EndOfEpoch _ a => [a] | _ => [] end) out.

(** [o] is the best of the accuracies [accs]: one of them, and no smaller
    than any of them; nothing when there is none yet. *)
Definition is_best (accs : list Q) (o : option Q) : Prop :=
  match o with
  | None => accs = []
  | Some b => In b accs /\ Forall (fun a => (a <= b)%Q) accs
  end.

(** Two models of the same shape. *)
Definition same_shape {F : Type} (m m' : TextClassificationModel F) : Prop :=
  vocab_size m' = vocab_size m /\ embed_dim m' = embed_dim m /\ num_class m' = num_class m.

(** The clipping of the library accepts every gradient, as version 1.13
    does; or it refuses every gradient, as versions 2.0 and 2.3 refuse the
    gradients of this model for their sparse part. *)
Definition clip_accepts {F : Type} `{Autograd F} : Prop :=
  forall (g : Grads F) (max_norm : F), is_Some (clip_grad_norm g max_norm).

Definition clip_refuses {F : Type} `{Autograd F} : Prop :=
  forall (g : Grads F) (max_norm : F), clip_grad_norm g max_norm = None.

(** Epoch [e] of the loop takes the script from [st] to [st']: [train] is
    called on the batches of the training loader, with the model and the
    learning rate of [st], and returns after an optimizer step for each
    batch; then [evaluate] is called on the batches of the validation
    loader, with the model that [train] returned; [st'] holds the model
    [evaluate] leaves, and the output is that of [st], the lines of [train]
    and the accuracy [evaluate] returned. *)
Definition epoch_of {F : Type} `{Scalar F} `{Autograd F}
    (train_dataloader valid_dataloader : Z -> list Batch) (e : Z)
    (st st' : Script (F := F)) : Prop :=
  exists (m : TextClassificationModel F) (lines : list (Line F)) (accu_val : F),
    train e (lr st) (model st) (train_dataloader e)
    = Some (m, lines, length (train_dataloader e))
    /\ evaluate m (valid_dataloader e) = Some (accu_val, model st')
    /\ stdout st' = stdout st ++ lines ++ [EndOfEpoch e accu_val].

(** The epochs [epochs] take the script from [st] to [st'], one after the
    other. *)
Fixpoint epochs_run {F : Type} `{Scalar F} `{Autograd F}
    (train_dataloader valid_dataloader : Z -> list Batch) (epochs : list Z)
    (st st' : Script (F := F)) : Prop :=
  match epochs with
  | [] => st' = st
  | e :: rest =>
      exists st1 : Script,
        epoch_of train_dataloader valid_dataloader e st st1
        /\ epochs_run train_dataloader valid_dataloader rest st1 st'
  end.

(** A call of [train] or of [evaluate] raises in epoch [e], from the script
    state [st]. *)
Definition epoch_raises {F : Type} `{Scalar F} `{Autograd F}
    (train_dataloader valid_dataloader : Z -> list Batch) (e : Z)
    (st : Script (F := F)) : Prop :=
  train e (lr st) (model st) (train_dataloader e) = None
  \/ exists (m : TextClassificationModel F) (lines : list (Line F)) (steps : nat),
       train e (lr st) (model st) (train_dataloader e) = Some (m, lines, steps)
       /\ evaluate m (valid_dataloader e) = None.

(** ** Concrete data for the examples *)

Definition demo_corpus : list Sample :=
  [ (Py.Int 3, "Wall St. Bears Claw Back Into the Black")%string;
    (Py.Int 4, "Oil and Economy Cloud Stocks' Outlook (Reuters)")%string;
    (Py.Int 1, "the bears are back, and the oil is black!")%string ].

Definition demo_draws (n : nat) : Q := (Z.of_nat (n mod 7) # 7)%Q.

(** A stand-in for the tensor library on rationals: constant gradients,
    scaled by the maximal norm when clipped. *)
Definition demo_loss_grad (m : TextClassificationModel Q) (b : Batch) : Grads Q :=
  {| g_embedding := fun _ _ => (1 # 3)%Q;
     g_fc_weight := fun j _ => inject_Z (Z.of_nat j);
     g_fc_bias := fun _ => (1 # 2)%Q |}.

#[export] Instance demo_autograd : Autograd Q := {|
  loss_grad := demo_loss_grad;
  clip_grad_norm := fun g mx =>
    Some {| g_embedding := fun t k => Qmult mx (g_embedding g t k);
            g_fc_weight := fun j k => Qmult mx (g_fc_weight g j k);
            g_fc_bias := fun j => Qmult mx (g_fc_bias g j) |}
|}.

(** The same with a clipping that refuses the gradient. *)
Definition strict_autograd : Autograd Q := {|
  loss_grad := demo_loss_grad;
  clip_grad_norm := fun _ _ => None
|}.

Definition demo_model : TextClassificationModel Q := new_model 24 3 4 demo_draws.

Definition demo_batch : list Sample :=
  [ (Py.Int 3, "the oil")%string; (Py.Int 1, ""%string);
    (Py.Str " 4 ", "bears and bulls")%string ].

Definition demo_dataloader (epoch : Z) : list Batch :=
  [ ([2; 3; 3], [1; 6; 4; 2; 0], [0; 2; 2]); ([0], [1], [0]) ].

(** A validation loader that yields no batch in epoch 3. *)
Definition demo_gap_dataloader (epoch : Z) : list Batch :=
  if epoch =? 3 then [] else demo_dataloader epoch.

Definition demo_eval_dataloader : list Batch :=
  [ ([3; 0; 2], [1; 6; 4; 2; 0], [0; 2; 2]) ].

Definition demo_vocab : Torchtext.Vocab :=
  Torchtext.set_default_index
    (Torchtext.vocab_of_tokens
       ["<unk>"; "the"; "and"; "back"; "bears"; "black"; "oil"]%string) 0.

(** A state of the script in which an accuracy of 1 has been recorded. *)
Definition demo_state : Script (F := Q) :=
  {| model := demo_model; lr := LR; scheduler := scheduler (script_init demo_model);
     total_accu := Some 1%Q; stdout := [] |}.

Definition example_vocab : Torchtext.Vocab :=
  Torchtext.set_default_index
    {| Torchtext.itos := [];
       Torchtext.stoi := {[ "<unk>" := 0; "here" := 475; "is" := 21; "an" := 30;
                            "example" := 5286 ]}%string;
       Torchtext.default_index := None |} 0.

(** ** The rest of the script *)

#[export] Instance value_eq_dec : EqDecision Py.value.
Proof. solve_decision. Defined.

Definition value_to_sum (x : Py.value) : Z + string :=
  match x with Py.Int z => inl z | Py.Str s => inr s end.

Definition value_of_sum (x : Z + string) : Py.value :=
  match x with inl z => Py.Int z | inr s => Py.Str s end.

#[export] Instance value_countable : Countable Py.value.
Proof. apply (inj_countable' value_to_sum value_of_sum). now intros []. Defined.

(** [set([label for (label, text) in train_iter])] *)
Definition label_set (train_iter : list Sample) : gset Py.value :=
  list_to_set (map fst train_iter).

(** [num_class = len(set([label for (label, text) in train_iter]))] *)
Definition script_num_class (train_iter : list Sample) : nat := size (label_set train_iter).

Definition emsize : nat := 64.

(** [vocab_size = len(vocab)] and
    [model = TextClassificationModel(vocab_size, emsize, num_class)]. *)
Definition script_model {F : Type} `{Scalar F} (train_iter : list Sample) (draws : nat -> F)
  : option (TextClassificationModel F) :=
  v ← vocab train_iter;
  Some (new_model (Z.to_nat (Torchtext.len v)) emsize (script_num_class train_iter) draws).

(** What one batch adds to the two counts of [evaluate]. *)
Definition batch_counts {F : Type} `{Scalar F} (m : TextClassificationModel F) (b : Batch)
  : option (Z * Z) :=
  evaluate_batch m (0, 0) (0, b).

(** The counts of a list of batches; nothing when a batch raises. *)
Fixpoint loader_counts {F : Type} `{Scalar F} (m : TextClassificationModel F) (l : list Batch)
  : option (Z * Z) :=
  match l with
  | [] => Some (0, 0)
  | b :: r =>
      match batch_counts m b, loader_counts m r with
      | Some (x, y), Some (x', y') => Some (x + x', y + y')
      | _, _ => None
      end
  end.

(** The epoch, batch number and batch total a progress line shows. *)
Definition progress_key {F : Type} (line : Line F) : option (Z * Z * Z) :=
  match line with
  | Progress epoch idx batches _ => Some (epoch, idx, batches)
  | _ => None
  end.

(** A small corpus with the labels 1 to 4. *)
Definition tiny_corpus : list Sample :=
  [ (Py.Int 3, "the oil")%string; (Py.Int 1, "the bears")%string;
    (Py.Int 4, "oil and bears")%string; (Py.Int 2, "back")%string;
    (Py.Int 3, "the back")%string ].

(** The batch numbers at which [train] prints: the positive multiples of
    [log_interval]. *)
Definition is_log_index (idx : Z) : Prop := idx mod log_interval = 0 /\ 0 < idx.

#[export] Instance is_log_index_dec (idx : Z) : Decision (is_log_index idx).
Proof. unfold is_log_index. apply _. Defined.

(** A loader of 1001 batches of one sample each. *)
Definition long_dataloader : list Batch := replicate 1001 ([0], [1], [0]).

(** * Properties *)

(** ** Runs on concrete inputs *)

Example int_of_str_examples :
  map Py.int_of_str ["10"; " -3 "; "+7"; "1_0"; "007"; "1__0"; "_1"; "1_"; ""; "-"; "1 2"; "ten"]%string
  = [Some 10; Some (-3); Some 7; Some 10; Some 7; None; None; None; None; None; None; None].
Proof. vm_compute. reflexivity. Qed.

Example tokenizer_example :
  tokenizer "Stocks' Outlook (Reuters)<br />Oil, up. Why?"
  = ["stocks"; "'"; "outlook"; "("; "reuters"; ")"; "oil"; ","; "up"; "."; "why"; "?"]%string.
Proof. vm_compute. reflexivity. Qed.

Example vocab_example :
  Torchtext.itos <$> vocab demo_corpus
  = Some ["<unk>"; "the"; "and"; "back"; "bears"; "black"; "oil"; "!"; "'"; "("; ")"; ",";
          "."; "are"; "claw"; "cloud"; "economy"; "into"; "is"; "outlook"; "reuters"; "st";
          "stocks"; "wall"]%string.
Proof. vm_compute. reflexivity. Qed.

Example text_pipeline_example :
  (v ← vocab demo_corpus; text_pipeline v "The black swan") = Some [1; 5; 0].
Proof. vm_compute. reflexivity. Qed.

Example collate_batch_example :
  collate_batch demo_vocab demo_batch = Some ([2; 0; 3], [1; 6; 4; 2; 0], [0; 2; 2]).
Proof. vm_compute. reflexivity. Qed.

Example collate_batch_empty : collate_batch demo_vocab [] = None.
Proof. vm_compute. reflexivity. Qed.

Example collate_batch_bad_label :
  collate_batch demo_vocab [(Py.Str "sports", "the oil"%string)] = None.
Proof. vm_compute. reflexivity. Qed.

Example forward_example :
  (logits ← forward demo_model [1; 6; 4; 2; 0] [0; 2; 2]; argmax1 logits) = Some [3; 0; 1].
Proof. vm_compute. reflexivity. Qed.

Example forward_index_out_of_range : forward demo_model [1; 24] [0] = None.
Proof. vm_compute. reflexivity. Qed.

Example forward_offset_beyond_input : forward demo_model [1; 6] [0; 3] = None.
Proof. vm_compute. reflexivity. Qed.

Example evaluate_label_out_of_range :
  evaluate demo_model [([9], [1; 6], [0])] = None.
Proof. vm_compute. reflexivity. Qed.

Example predict_example : predict demo_model demo_vocab "the oil" = Some 4.
Proof. vm_compute. reflexivity. Qed.

Example predict_empty_text : predict demo_model demo_vocab "" = None.
Proof. vm_compute. reflexivity. Qed.

Example scheduler_step_example :
  scheduler_step (scheduler (script_init demo_model)) 5%Q
  = ({| step_size := 1; gamma := (1 / 10)%Q; last_epoch := 1 |}, (5 * (1 / 10))%Q).
Proof. reflexivity. Qed.

(** ** The collator *)

Lemma total_app (l k : list Z) : total (l ++ k) = total l + total k.
Proof. unfold total. induction l as [|x l IH]; simpl; lia. Qed.

Lemma cumsum_from_length (l : list Z) : forall acc, length (cumsum_from acc l) = length l.
Proof. induction l as [|x l IH]; intros acc; simpl; [reflexivity | now rewrite IH]. Qed.

Lemma cumsum_from_lookup (l : list Z) :
  forall acc (i : nat), (i < length l)%nat ->
    cumsum_from acc l !! i = Some (acc + total (take (S i) l)).
Proof.
  induction l as [|x l IH]; intros acc i Hi; simpl in Hi; [lia|].
  destruct i as [|i]; simpl.
  - f_equal. destruct l; simpl; lia.
  - rewrite IH by lia. f_equal. unfold total. simpl. lia.
Qed.

Lemma token_counts_take (encoded : list (list Z)) (i : nat) :
  token_counts (take i encoded) = take i (token_counts encoded).
Proof.
  unfold token_counts. revert i.
  induction encoded as [|e l IH]; intros [|i]; simpl; try reflexivity.
  now rewrite IH.
Qed.

Lemma concat_length_total (encoded : list (list Z)) :
  Z.of_nat (length (concat encoded)) = total (token_counts encoded).
Proof.
  induction encoded as [|e l IH]; simpl; [reflexivity|].
  rewrite length_app. unfold total in *. simpl. lia.
Qed.

Lemma concat_run (encoded : list (list Z)) (i : nat) (enc : list Z) :
  encoded !! i = Some enc ->
  take (length enc)
    (drop (Z.to_nat (total (take i (token_counts encoded)))) (concat encoded)) = enc.
Proof.
  intros Hi.
  rewrite <- token_counts_take, <- concat_length_total, Nat2Z.id.
  rewrite <- (take_drop i encoded) at 2.
  rewrite concat_app, drop_app_length.
  rewrite (drop_S _ _ _ Hi). simpl. apply take_app_length.
Qed.

Lemma mapM_cons_Some {A B : Type} (f : A -> option B) (x : A) (l : list A) (k : list B) :
  mapM f (x :: l) = Some k ->
  exists y k', f x = Some y /\ mapM f l = Some k' /\ k = y :: k'.
Proof.
  intros Hm. apply mapM_Some_1 in Hm. inversion Hm as [|? y ? k' Hy Hk]; subst.
  exists y, k'. repeat split; [exact Hy|]. apply mapM_Some_2, Hk.
Qed.

Lemma collate_step_Some (v : Torchtext.Vocab) (ls : list Z) (ts : list (list Z)) (os : list Z)
    (lb : Py.value) (tx : string) (l : Z) (e : list Z) :
  label_pipeline lb = Some l -> text_pipeline v tx = Some e ->
  collate_step v (ls, ts, os) (lb, tx)
  = Some (ls ++ [l], ts ++ [e], os ++ [Z.of_nat (length e)]).
Proof. intros Hl He. unfold collate_step. rewrite Hl, He. reflexivity. Qed.

Lemma collate_loop_spec (v : Torchtext.Vocab) (batch : list Sample) :
  forall ls ts os labels encoded,
    mapM label_pipeline (map fst batch) = Some labels ->
    mapM (text_pipeline v) (map snd batch) = Some encoded ->
    collate_loop v (ls, ts, os) batch
    = Some (ls ++ labels, ts ++ encoded, os ++ token_counts encoded).
Proof.
  induction batch as [|[lb tx] rest IH]; intros ls ts os labels encoded Hl He.
  - cbn [map] in Hl, He. inversion Hl; inversion He; subst.
    cbn [collate_loop token_counts map]. now rewrite !app_nil_r.
  - cbn [map fst snd] in Hl, He.
    apply mapM_cons_Some in Hl as (l & labels' & El & Els & ->).
    apply mapM_cons_Some in He as (e & encoded' & Ee & Ees & ->).
    cbn [collate_loop]. rewrite (collate_step_Some v ls ts os lb tx l e El Ee).
    cbn [mbind option_bind].
    rewrite (IH _ _ _ labels' encoded' Els Ees).
    cbn [token_counts map]. now rewrite <- !app_assoc.
Qed.

Lemma mapM_length {A B : Type} (f : A -> option B) (l : list A) (k : list B) :
  mapM f l = Some k -> length k = length l.
Proof.
  intros Hm. apply mapM_Some_1 in Hm. symmetry. eapply Forall2_length, Hm.
Qed.

Lemma mapM_lookup {A B : Type} (f : A -> option B) (l : list A) (k : list B) (i : nat) (x : A) :
  mapM f l = Some k -> l !! i = Some x -> exists y, f x = Some y /\ k !! i = Some y.
Proof.
  intros Hm Hx. apply mapM_Some_1 in Hm.
  destruct (Forall2_lookup_l _ _ _ _ _ Hm Hx) as (y & Hy & Hf). eauto.
Qed.

(** C1.  For a batch of at least one sample on which the two pipelines
    succeed, giving the labels [labels] (which fit the int64 label tensor)
    and the encoded token sequences [encoded], [collate_batch] returns those
    labels in input order, as many offsets as samples, the first of them 0
    and offset [i] the sum of the token counts of the samples before sample
    [i], and a token tensor whose length is the sum of all token counts and
    in which the run starting at offset [i] is the encoded sequence of
    sample [i]. *)
Theorem collate_batch_layout (v : Torchtext.Vocab) (batch : list Sample)
    (labels : list Z) (encoded : list (list Z)) :
  batch <> [] ->
  mapM label_pipeline (map fst batch) = Some labels ->
  forallb fits_int64 labels = true ->
  mapM (text_pipeline v) (map snd batch) = Some encoded ->
  exists text offsets,
    collate_batch v batch = Some (labels, text, offsets)
    /\ length labels = length batch
    /\ length offsets = length batch
    /\ offsets !! 0%nat = Some 0
    /\ (forall i : nat, (i < length batch)%nat ->
          offsets !! i = Some (total (take i (token_counts encoded))))
    /\ Z.of_nat (length text) = total (token_counts encoded)
    /\ (forall (i : nat) (s : Sample), batch !! i = Some s ->
          exists l enc o,
            label_pipeline s.1 = Some l /\ labels !! i = Some l
            /\ text_pipeline v s.2 = Some enc /\ encoded !! i = Some enc
            /\ offsets !! i = Some o
            /\ take (length enc) (drop (Z.to_nat o) text) = enc).
Proof.
  intros Hne Hl Hfit He.
  pose proof (mapM_length _ _ _ Hl) as Hll. rewrite length_map in Hll.
  pose proof (mapM_length _ _ _ He) as Hle. rewrite length_map in Hle.
  assert (Hn : (0 < length batch)%nat) by (destruct batch; [congruence | simpl; lia]).
  assert (Hoff : forall i : nat, (i < length batch)%nat ->
            cumsum (but_last ([0] ++ token_counts encoded)) !! i
            = Some (total (take i (token_counts encoded)))).
  { intros i Hi. unfold cumsum, but_last.
    assert (Hc : length (token_counts encoded) = length batch)
      by (unfold token_counts; rewrite length_map; exact Hle).
    rewrite cumsum_from_lookup.
    - f_equal. rewrite take_take.
      assert (Hlen : Nat.sub (length ([0] ++ token_counts encoded)) 1 = length batch)
        by (rewrite length_app, Hc; simpl; lia).
      rewrite Hlen, Nat.min_l by lia.
      simpl. unfold total. simpl. reflexivity.
    - rewrite length_take, length_app. simpl. lia. }
  exists (concat encoded), (cumsum (but_last ([0] ++ token_counts encoded))).
  repeat split.
  - unfold collate_batch.
    rewrite (collate_loop_spec v batch [] [] [0] labels encoded Hl He).
    cbn [mbind option_bind app]. unfold tensor_int64. rewrite Hfit.
    destruct encoded as [|e encoded']; [cbn [length] in Hle; lia|]. reflexivity.
  - exact Hll.
  - unfold cumsum, but_last. rewrite cumsum_from_length, length_take, length_app.
    unfold token_counts. rewrite length_map. simpl. lia.
  - rewrite (Hoff 0%nat Hn). reflexivity.
  - exact Hoff.
  - apply concat_length_total.
  - intros i s Hs.
    assert (Hi : (i < length batch)%nat) by (eapply lookup_lt_Some; exact Hs).
    assert (Hs1 : map fst batch !! i = Some s.1)
      by (change (map fst batch) with (fst <$> batch); rewrite list_lookup_fmap, Hs; reflexivity).
    assert (Hs2 : map snd batch !! i = Some s.2)
      by (change (map snd batch) with (snd <$> batch); rewrite list_lookup_fmap, Hs; reflexivity).
    destruct (mapM_lookup _ _ _ _ _ Hl Hs1) as (l & Hlp & Hli).
    destruct (mapM_lookup _ _ _ _ _ He Hs2) as (enc & Htp & Hei).
    exists l, enc, (total (take i (token_counts encoded))).
    repeat split; try assumption.
    + apply Hoff, Hi.
    + apply concat_run, Hei.
Qed.

Lemma collate_batch_layout_witness :
  exists text offsets,
    collate_batch demo_vocab demo_batch = Some ([2; 0; 3], text, offsets)
    /\ length offsets = length demo_batch
    /\ offsets !! 0%nat = Some 0.
Proof.
  destruct (collate_batch_layout demo_vocab demo_batch [2; 0; 3] [[1; 6]; []; [4; 2; 0]])
    as (text & offsets & Hc & _ & Hlen & H0 & _).
  - discriminate.
  - vm_compute. reflexivity.
  - vm_compute. reflexivity.
  - vm_compute. reflexivity.
  - exists text, offsets. repeat split; assumption.
Defined.

(** ** The pipelines *)

Lemma label_pipeline_int (z : Z) : label_pipeline (Py.Int z) = Some (z - 1).
Proof. reflexivity. Qed.

Lemma label_pipeline_str (s : string) :
  label_pipeline (Py.Str s) = (fun z => z - 1) <$> Py.int_of_str s.
Proof. unfold label_pipeline. cbn [Py.int]. now destruct (Py.int_of_str s). Qed.

(** C2, as the code has it.  On the labels 1, 2, 3, 4 the label pipeline is
    a bijection onto the classes 0, 1, 2, 3.  It checks no range: every
    integer [z] is mapped to [z - 1], so an integer outside 1..4 gives a
    value outside 0..3, and a string is mapped like the integer it
    denotes; the pipeline fails only where [int] fails. *)
Theorem label_pipeline_shift :
  (forall z : Z, 1 <= z <= 4 ->
     exists c, label_pipeline (Py.Int z) = Some c /\ 0 <= c <= 3)
  /\ (forall z z' c : Z, label_pipeline (Py.Int z) = Some c ->
        label_pipeline (Py.Int z') = Some c -> z = z')
  /\ (forall c : Z, 0 <= c <= 3 ->
        exists z, 1 <= z <= 4 /\ label_pipeline (Py.Int z) = Some c)
  /\ (forall z : Z, ~ (1 <= z <= 4) ->
        exists c, label_pipeline (Py.Int z) = Some c /\ c = z - 1 /\ ~ (0 <= c <= 3))
  /\ (forall x : Py.value, label_pipeline x = None <-> Py.int x = None)
  /\ (forall (s : string) (z : Z), Py.int_of_str s = Some z ->
        label_pipeline (Py.Str s) = Some (z - 1)).
Proof.
  repeat split.
  - intros z Hz. exists (z - 1). rewrite label_pipeline_int. split; [reflexivity | lia].
  - intros z z' c Hz Hz'. rewrite label_pipeline_int in Hz, Hz'.
    inversion Hz; inversion Hz'; lia.
  - intros c Hc. exists (c + 1). rewrite label_pipeline_int.
    split; [lia | f_equal; lia].
  - intros z Hz. exists (z - 1). rewrite label_pipeline_int.
    repeat split; lia.
  - unfold label_pipeline. destruct (Py.int x); [discriminate | reflexivity].
  - unfold label_pipeline. intros ->. reflexivity.
  - intros s z Hs. rewrite label_pipeline_str, Hs. reflexivity.
Qed.

(** C2, as stated, fails: the label 10 is outside 1..4, the pipeline returns
    9 for it without failing, and the collator passes the 9 on in the label
    tensor of the batch. *)
Lemma label_pipeline_unguarded :
  ~ (1 <= 10 <= 4)
  /\ label_pipeline (Py.Int 10) = Some 9
  /\ ~ (0 <= 9 <= 3)
  /\ collate_batch demo_vocab [(Py.Int 10, "the oil"%string)] = Some ([9], [1; 6], [0]).
Proof.
  repeat split; try lia; vm_compute; reflexivity.
Qed.

(** C3.  The label pipeline maps the raw label "10" to 9. *)
Theorem label_pipeline_of_10 : label_pipeline (Py.Str "10") = Some 9.
Proof. vm_compute. reflexivity. Qed.

Lemma lookup_indices_default (v : Torchtext.Vocab) (d : Z) (tokens : list string) :
  Torchtext.default_index v = Some d ->
  Torchtext.lookup_indices v tokens
  = Some (map (fun t => default d (Torchtext.stoi v !! t)) tokens).
Proof.
  intros Hd. unfold Torchtext.lookup_indices. apply mapM_Some_2.
  induction tokens as [|t r IH]; cbn [map]; constructor; [|exact IH].
  unfold Torchtext.getitem. rewrite Hd. now destruct (Torchtext.stoi v !! t).
Qed.

Lemma lookup_indices_present (v : Torchtext.Vocab) (tokens : list string) (ids : list Z) :
  Forall2 (fun t i => Torchtext.stoi v !! t = Some i) tokens ids ->
  Torchtext.lookup_indices v tokens = Some ids.
Proof.
  intros Hall. unfold Torchtext.lookup_indices. apply mapM_Some_2.
  induction Hall as [|t i ts ids' Hti Hrest IH]; constructor; [|exact IH].
  unfold Torchtext.getitem. now rewrite Hti.
Qed.

Lemma vocab_unk (train_iter : list Sample) :
  exists v, vocab train_iter = Some v
    /\ Torchtext.stoi v !! "<unk>"%string = Some 0
    /\ Torchtext.default_index v = Some 0
    /\ exists tokens, Torchtext.itos v = "<unk>"%string :: tokens
         /\ Torchtext.stoi v = Torchtext.stoi_of 0 ("<unk>"%string :: tokens).
Proof.
  unfold vocab, Torchtext.build_vocab_from_iterator.
  set (tokens := map fst _).
  cbn [app]. unfold Torchtext.getitem at 1.
  cbn [Torchtext.vocab_of_tokens Torchtext.stoi Torchtext.stoi_of Torchtext.default_index].
  rewrite lookup_insert_eq. cbn [mbind option_bind].
  eexists. split; [reflexivity|].
  cbn [Torchtext.set_default_index Torchtext.vocab_of_tokens Torchtext.stoi
       Torchtext.itos Torchtext.default_index Torchtext.stoi_of].
  rewrite lookup_insert_eq. repeat split. exists tokens. split; reflexivity.
Qed.

(** C4.  With the vocabulary the script builds from any training corpus, the
    unknown-token entry and the default index are 0, and the text pipeline
    returns, for every input string, the tokens of the tokenizer each mapped
    to its index in the vocabulary, or to 0 when the vocabulary does not have
    it.  And with any vocabulary that maps here, is, an, example to 475, 21,
    30, 5286, the text "here is an example" encodes to [475; 21; 30; 5286]. *)
Theorem text_pipeline_encodes :
  (forall train_iter : list Sample,
     exists v, vocab train_iter = Some v
       /\ Torchtext.stoi v !! "<unk>"%string = Some 0
       /\ Torchtext.default_index v = Some 0
       /\ forall x : string,
            text_pipeline v x
            = Some (map (fun t => default 0 (Torchtext.stoi v !! t)) (tokenizer x)))
  /\ (forall v : Torchtext.Vocab,
        Torchtext.stoi v !! "here"%string = Some 475 ->
        Torchtext.stoi v !! "is"%string = Some 21 ->
        Torchtext.stoi v !! "an"%string = Some 30 ->
        Torchtext.stoi v !! "example"%string = Some 5286 ->
        tokenizer "here is an example" = ["here"; "is"; "an"; "example"]%string
        /\ text_pipeline v "here is an example" = Some [475; 21; 30; 5286]).
Proof.
  split.
  - intros train_iter.
    destruct (vocab_unk train_iter) as (v & Hv & Hu & Hd & _).
    exists v. repeat split; try assumption.
    intros x. unfold text_pipeline. apply lookup_indices_default, Hd.
  - intros v H1 H2 H3 H4.
    assert (Htok : tokenizer "here is an example" = ["here"; "is"; "an"; "example"]%string)
      by (vm_compute; reflexivity).
    split; [exact Htok|].
    unfold text_pipeline. rewrite Htok.
    apply lookup_indices_present. repeat constructor; assumption.
Qed.

Lemma text_pipeline_encodes_witness :
  text_pipeline example_vocab "here is an example" = Some [475; 21; 30; 5286].
Proof.
  apply (proj2 text_pipeline_encodes example_vocab); vm_compute; reflexivity.
Defined.

(** ** The learning-rate schedule *)

Section Schedule.
Context {F : Type} `{Scalar F} `{Autograd F}.

Lemma scheduler_inv_init (m : TextClassificationModel F) :
  scheduler_inv (scheduler (script_init m)).
Proof. unfold scheduler_inv, script_init. cbn. repeat split; lia. Qed.

Lemma scheduler_step_decays (s : StepLR) (lr0 : F) :
  scheduler_inv s ->
  exists s', scheduler_step s lr0 = (s', fmul lr0 (fdiv (f_of_Z 1) (f_of_Z 10)))
             /\ scheduler_inv s'.
Proof.
  intros (Hs & Hg & Hl). unfold scheduler_step.
  rewrite Hs, Z.mod_1_r.
  replace (last_epoch s + 1 =? 0) with false by (symmetry; apply Z.eqb_neq; lia).
  cbn [orb negb Z.eqb]. rewrite Hg.
  eexists. split; [reflexivity|].
  unfold scheduler_inv. cbn. repeat split; try assumption; lia.
Qed.

(** C5, as the code has it.  At the end of an epoch of the script, the
    learning rate is multiplied by 0.1 exactly when the best validation
    accuracy recorded so far is strictly greater than the validation accuracy
    of this epoch, and the recorded best is then kept; in every other case
    (the first epoch, a higher accuracy, an equal accuracy) the accuracy of
    this epoch is recorded and the learning rate is left as it is. *)
Theorem epoch_end_schedule (train_dataloader valid_dataloader : Z -> list Batch)
    (st st' : Script) (epoch : Z) :
  scheduler_inv (scheduler st) ->
  epoch_body train_dataloader valid_dataloader st epoch = Some st' ->
  exists (accu_val : F) (m : TextClassificationModel F),
    evaluate m (valid_dataloader epoch) = Some (accu_val, model st')
    /\ List.last (stdout st') (EndOfEpoch 0 fzero) = EndOfEpoch epoch accu_val
    /\ scheduler_inv (scheduler st')
    /\ match total_accu st with
       | Some best =>
           if fltb accu_val best
           then lr st' = fmul (lr st) (fdiv (f_of_Z 1) (f_of_Z 10))
                /\ total_accu st' = Some best
           else lr st' = lr st /\ total_accu st' = Some accu_val
       | None => lr st' = lr st /\ total_accu st' = Some accu_val
       end.
Proof.
  intros Hinv Hb. unfold epoch_body in Hb.
  destruct (train epoch (lr st) (model st) (train_dataloader epoch))
    as [[[m lines] steps]|] eqn:Et;
    cbn [mbind option_bind] in Hb; [|discriminate].
  destruct (evaluate m (valid_dataloader epoch)) as [[accu_val m']|] eqn:Ee;
    cbn [mbind option_bind] in Hb; [|discriminate].
  exists accu_val, m.
  unfold end_of_epoch in Hb.
  destruct (total_accu st) as [best|] eqn:Eb.
  - destruct (fltb accu_val best) eqn:Elt.
    + destruct (scheduler_step_decays (scheduler st) (lr st) Hinv) as (s' & Hs' & Hinv').
      rewrite Hs' in Hb. inversion Hb; subst st'; cbn.
      rewrite app_assoc, last_last. repeat split; try assumption; apply Hinv'.
    + inversion Hb; subst st'; cbn.
      rewrite app_assoc, last_last. repeat split; try assumption; apply Hinv.
  - inversion Hb; subst st'; cbn.
    rewrite app_assoc, last_last. repeat split; try assumption; apply Hinv.
Qed.

End Schedule.

Lemma epoch_end_schedule_witness :
  exists (st' : Script (F := Q)) (accu_val : Q),
    epoch_body demo_dataloader demo_dataloader demo_state 1 = Some st'
    /\ List.last (stdout st') (EndOfEpoch 0 0%Q) = EndOfEpoch 1 accu_val.
Proof.
  destruct (epoch_body demo_dataloader demo_dataloader demo_state 1) as [st'|] eqn:E.
  - destruct (epoch_end_schedule demo_dataloader demo_dataloader demo_state st' 1
                (scheduler_inv_init demo_model) E) as (a & m & _ & Hlast & _).
    exists st', a. split; [reflexivity | exact Hlast].
  - exfalso.
    assert (Hs : is_Some (epoch_body demo_dataloader demo_dataloader demo_state 1)).
    { assert (Hb : bool_decide (is_Some (epoch_body demo_dataloader demo_dataloader demo_state 1)) = true)
        by (vm_compute; reflexivity).
      apply bool_decide_eq_true in Hb. exact Hb. }
    rewrite E in Hs. destruct Hs as [x Hx]. discriminate.
Defined.

(** C5, as stated, fails: with a best validation accuracy of 1/4 recorded,
    an epoch whose validation accuracy is again 1/4 has not improved on the
    best seen so far, and yet the scheduler does not step and the learning
    rate stays 5; the accuracy is recorded instead. *)
Lemma equal_accuracy_keeps_learning_rate :
  ~ ((1 # 4) < (1 # 4))%Q
  /\ end_of_epoch (scheduler (script_init demo_model)) 5%Q (Some (1 # 4)%Q) (1 # 4)%Q
     = (scheduler (script_init demo_model), 5%Q, Some (1 # 4)%Q).
Proof.
  split; [|reflexivity]. intros Hlt. revert Hlt. apply Qlt_irrefl.
Qed.

(** The same in a whole run of the loop: every epoch of this run has the
    validation accuracy 1/4, and the learning rate is 5 after the ten
    epochs. *)
Example epoch_loop_equal_accuracies :
  (fun st : Script (F := Q) => (lr st, total_accu st, stdout st))
    <$> epoch_loop demo_dataloader demo_dataloader (script_init demo_model)
  = Some (5%Q, Some (1 # 4)%Q,
          [EndOfEpoch 1 (1 # 4)%Q; EndOfEpoch 2 (1 # 4)%Q; EndOfEpoch 3 (1 # 4)%Q;
           EndOfEpoch 4 (1 # 4)%Q; EndOfEpoch 5 (1 # 4)%Q; EndOfEpoch 6 (1 # 4)%Q;
           EndOfEpoch 7 (1 # 4)%Q; EndOfEpoch 8 (1 # 4)%Q; EndOfEpoch 9 (1 # 4)%Q;
           EndOfEpoch 10 (1 # 4)%Q]).
Proof. vm_compute. reflexivity. Qed.

(** ** The recorded accuracy is the best so far *)

Lemma end_of_epoch_best (s : StepLR (F := Q)) (lr0 : Q) (accs : list Q) (o : option Q) (a : Q) :
  is_best accs o -> is_best (accs ++ [a]) (end_of_epoch s lr0 o a).2.
Proof.
  unfold end_of_epoch, is_best. destruct o as [b|].
  - intros [Hin Hall]. cbn [fltb Q_Scalar].
    destruct (Qle_bool b a) eqn:Hle; cbn [negb snd].
    + apply Qle_bool_iff in Hle. split; [apply in_or_app; right; left; reflexivity|].
      apply Forall_app. split; [|constructor; [apply Qle_refl | constructor]].
      eapply Forall_impl; [exact Hall|]. intros x Hx. cbn in Hx. eapply Qle_trans; eassumption.
    + assert (Hlt : (a < b)%Q).
      { apply Qnot_le_lt. intros Hc. apply Qle_bool_iff in Hc. congruence. }
      destruct (scheduler_step s lr0) as [s' lr']. cbn [snd].
      split; [apply in_or_app; left; exact Hin|].
      apply Forall_app. split; [exact Hall|].
      constructor; [apply Qlt_le_weak, Hlt | constructor].
  - intros ->. cbn [snd app]. split; [left; reflexivity|].
    constructor; [apply Qle_refl | constructor].
Qed.

Lemma validation_accuracies_app {F : Type} (l k : list (Line F)) :
  validation_accuracies (l ++ k) = validation_accuracies l ++ validation_accuracies k.
Proof. unfold validation_accuracies. apply flat_map_app. Qed.

Section Progress.
Context {F : Type} `{Scalar F} `{Autograd F}.

(** What a turn of the loop of [train] that returns has done: the forward
    pass, the loss and the clipping have accepted their arguments, the model
    is the clipped one after the optimizer step, one more step is counted,
    and a progress line is printed at the batch numbers that are positive
    multiples of [log_interval]. *)
Lemma train_batch_inv (epoch batches : Z) (lr0 : F) (st st' : TrainState)
    (idx : Z) (label text offsets : list Z) :
  train_batch epoch batches lr0 st (idx, (label, text, offsets)) = Some st' ->
  exists (logits : list (list F)) (m1 : TextClassificationModel F) (pred : list Z),
    forward (zero_grad (t_model st)) text offsets = Some logits
    /\ criterion (zero_grad (t_model st)) logits label = Some tt
    /\ clip_grads (backward (zero_grad (t_model st)) (label, text, offsets)) = Some m1
    /\ argmax1 logits = Some pred
    /\ t_model st' = optimizer_step lr0 m1
    /\ t_steps st' = S (t_steps st)
    /\ (if (idx mod log_interval =? 0) && (0 <? idx)
        then exists accuracy : F,
               t_out st' = t_out st ++ [Progress epoch idx batches accuracy]
        else t_out st' = t_out st).
Proof.
  unfold train_batch. intros Hb.
  destruct (forward _ text offsets) as [logits|] eqn:Ef;
    cbn [mbind option_bind] in Hb; [|discriminate].
  destruct (criterion _ _ label) as [[]|] eqn:Ec;
    cbn [mbind option_bind] in Hb; [|discriminate].
  destruct (clip_grads _) as [m1|] eqn:Ek; cbn [mbind option_bind] in Hb; [|discriminate].
  destruct (argmax1 _) as [pred|] eqn:Ep; cbn [mbind option_bind] in Hb; [|discriminate].
  exists logits, m1, pred.
  destruct (_ && _) in Hb |- *.
  - destruct (_ =? 0) in Hb; [discriminate|]. apply (inj Some) in Hb. subst st'.
    cbn [t_model t_steps t_out]. repeat split; try assumption. eexists. reflexivity.
  - apply (inj Some) in Hb. subst st'. repeat split; assumption.
Qed.

(** Clipping changes the gradient only. *)
Lemma clip_grads_inv (m m' : TextClassificationModel F) :
  clip_grads m = Some m' -> exists g : option (Grads F), m' = set_grad g m.
Proof.
  unfold clip_grads. destruct (grad m) as [g|] eqn:Eg.
  - destruct (clip_grad_norm g _) as [g'|]; cbn [mbind option_bind]; [|discriminate].
    intros Hm. apply (inj Some) in Hm. subst m'. eauto.
  - intros Hm. apply (inj Some) in Hm. subst m'. exists None.
    destruct m. cbn in Eg. subst. reflexivity.
Qed.

Lemma train_batch_out (epoch batches : Z) (lr0 : F) (st st' : TrainState) (ib : Z * Batch) :
  train_batch epoch batches lr0 st ib = Some st' ->
  validation_accuracies (t_out st') = validation_accuracies (t_out st).
Proof.
  destruct ib as [idx [[label text] offsets]]. intros Hb.
  apply train_batch_inv in Hb as (_ & _ & _ & _ & _ & _ & _ & _ & _ & Hout).
  destruct (_ && _) in Hout.
  - destruct Hout as [a ->]. rewrite validation_accuracies_app. cbn. now rewrite app_nil_r.
  - now rewrite Hout.
Qed.

Lemma train_loop_out (epoch batches : Z) (lr0 : F) (l : list (Z * Batch)) :
  forall st st' : TrainState,
    for_each (train_batch epoch batches lr0) st l = Some st' ->
    validation_accuracies (t_out st') = validation_accuracies (t_out st).
Proof.
  induction l as [|ib l IH]; intros st st' Hl; cbn [for_each] in Hl.
  - now inversion Hl.
  - destruct (train_batch epoch batches lr0 st ib) as [st1|] eqn:E1;
      cbn [mbind option_bind] in Hl; [|discriminate].
    rewrite (IH st1 st' Hl). eapply train_batch_out, E1.
Qed.

Lemma train_out (epoch : Z) (lr0 : F) (m m' : TextClassificationModel F)
    (dataloader : list Batch) (lines : list (Line F)) (steps : nat) :
  train epoch lr0 m dataloader = Some (m', lines, steps) ->
  validation_accuracies lines = [].
Proof.
  unfold train. intros Ht.
  destruct (for_each _ _ (enumerate dataloader)) as [st|] eqn:E;
    cbn [mbind option_bind] in Ht; [|discriminate].
  inversion Ht; subst. apply (train_loop_out _ _ _ _ _ _ E).
Qed.

End Progress.

Section BestSoFar.
Context `{Autograd Q}.

Lemma epoch_body_best (train_dataloader valid_dataloader : Z -> list Batch)
    (st st' : Script (F := Q)) (epoch : Z) :
  epoch_body train_dataloader valid_dataloader st epoch = Some st' ->
  is_best (validation_accuracies (stdout st)) (total_accu st) ->
  is_best (validation_accuracies (stdout st')) (total_accu st').
Proof.
  unfold epoch_body. intros Hb Hbest.
  destruct (train epoch (lr st) (model st) (train_dataloader epoch))
    as [[[m lines] steps]|] eqn:Et; cbn [mbind option_bind] in Hb; [|discriminate].
  destruct (evaluate m (valid_dataloader epoch)) as [[accu_val m']|] eqn:Ee;
    cbn [mbind option_bind] in Hb; [|discriminate].
  pose proof (end_of_epoch_best (scheduler st) (lr st) _ _ accu_val Hbest) as Hnew.
  destruct (end_of_epoch _ _ _ _) as [[s lr'] best].
  inversion Hb; subst st'. cbn [stdout total_accu].
  rewrite !validation_accuracies_app, (train_out _ _ _ _ _ _ _ Et). exact Hnew.
Qed.

(** After the epoch loop the recorded accuracy is the best of the validation
    accuracies of the epochs: it is one of them and none is greater. *)
Lemma epoch_loop_best (train_dataloader valid_dataloader : Z -> list Batch)
    (m : TextClassificationModel Q) (st : Script (F := Q)) :
  epoch_loop train_dataloader valid_dataloader (script_init m) = Some st ->
  is_best (validation_accuracies (stdout st)) (total_accu st).
Proof.
  unfold epoch_loop.
  assert (Hgen : forall (epochs : list Z) (st0 st1 : Script (F := Q)),
            for_each (epoch_body train_dataloader valid_dataloader) st0 epochs = Some st1 ->
            is_best (validation_accuracies (stdout st0)) (total_accu st0) ->
            is_best (validation_accuracies (stdout st1)) (total_accu st1)).
  { induction epochs as [|e epochs IH]; intros st0 st1 Hl Hb; cbn [for_each] in Hl.
    - now inversion Hl; subst.
    - destruct (epoch_body train_dataloader valid_dataloader st0 e) as [st2|] eqn:E2;
        cbn [mbind option_bind] in Hl; [|discriminate].
      eapply IH; [exact Hl|]. eapply epoch_body_best; eassumption. }
  intros Hl. eapply Hgen; [exact Hl|]. reflexivity.
Qed.

End BestSoFar.

(** ** The forward pass *)

Section Forward.
Context {F : Type} `{Scalar F}.

Lemma forward_set_training (b : bool) (m : TextClassificationModel F) (text offsets : list Z) :
  forward (set_training b m) text offsets = forward m text offsets.
Proof. reflexivity. Qed.

Lemma forward_set_grad (g : option (Grads F)) (m : TextClassificationModel F)
    (text offsets : list Z) :
  forward (set_grad g m) text offsets = forward m text offsets.
Proof. reflexivity. Qed.

Lemma bag_bounds_length (offsets : list Z) (n : Z) :
  length (bag_bounds offsets n) = length offsets.
Proof.
  unfold bag_bounds. rewrite length_zip_with, length_app, length_drop. simpl. lia.
Qed.

Lemma bag_mean_nil (m : TextClassificationModel F) :
  bag_mean m [] = replicate (embed_dim m) fzero.
Proof.
  unfold bag_mean. generalize 0%nat.
  induction (embed_dim m) as [|d IH]; intros start; simpl; [reflexivity|].
  now rewrite IH.
Qed.

Lemma linear_length (m : TextClassificationModel F) (x : list F) :
  length (linear m x) = num_class m.
Proof. unfold linear. now rewrite length_map, length_seq. Qed.

Lemma embedding_bag_Some (m : TextClassificationModel F) (text offsets : list Z) :
  forallb (index_ok m) text = true ->
  offsets_ok offsets (Z.of_nat (length text)) = true ->
  embedding_bag m text offsets
  = Some (map (fun b => bag_mean m (bag text b))
            (bag_bounds offsets (Z.of_nat (length text)))).
Proof. intros Hi Ho. unfold embedding_bag. now rewrite Hi, Ho. Qed.

Lemma forward_Some (m : TextClassificationModel F) (text offsets : list Z) :
  forallb (index_ok m) text = true ->
  offsets_ok offsets (Z.of_nat (length text)) = true ->
  exists logits,
    forward m text offsets = Some logits
    /\ length logits = length offsets
    /\ Forall (fun row => length row = num_class m) logits.
Proof.
  intros Hi Ho. unfold forward. rewrite (embedding_bag_Some m text offsets Hi Ho).
  cbn [mbind option_bind]. eexists. split; [reflexivity|]. split.
  - now rewrite !length_map, bag_bounds_length.
  - apply Forall_forall. intros row Hrow.
    apply list_elem_of_In, in_map_iff in Hrow as (x & <- & _). apply linear_length.
Qed.

Lemma argmax_go_bound (l : list F) :
  forall (best : nat) (bv : F) (i : nat),
    (best < i)%nat -> (argmax_go best bv i l < i + length l)%nat.
Proof.
  induction l as [|x r IH]; intros best bv i Hb; simpl; [lia|].
  destruct (fltb bv x).
  - specialize (IH i x (S i)). lia.
  - specialize (IH best bv (S i)). lia.
Qed.

Lemma argmax_bound (row : list F) (i : Z) :
  argmax row = Some i -> 0 <= i < Z.of_nat (length row).
Proof.
  destruct row as [|x r]; simpl; [discriminate|].
  intros Hi. inversion Hi; subst i.
  pose proof (argmax_go_bound r 0%nat x 1%nat). lia.
Qed.

Lemma argmax_Some (row : list F) : row <> [] -> exists i, argmax row = Some i.
Proof. destruct row as [|x r]; [congruence | simpl; eauto]. Qed.

Lemma argmax1_Some (classes : nat) (logits : list (list F)) :
  (0 < classes)%nat ->
  Forall (fun row => length row = classes) logits ->
  exists pred, argmax1 logits = Some pred /\ length pred = length logits.
Proof.
  intros Hc Hall.
  assert (Hs : is_Some (argmax1 logits)).
  { unfold argmax1. apply mapM_is_Some_2. eapply Forall_impl; [exact Hall|].
    intros row Hrow. cbn. destruct (argmax_Some row) as [i Hi].
    - destruct row; [simpl in Hrow; lia | discriminate].
    - rewrite Hi. eauto. }
  destruct Hs as [pred Hp]. exists pred. split; [exact Hp|].
  unfold argmax1 in Hp. apply (mapM_length _ _ _ Hp).
Qed.

Lemma batch_ok_parts (m : TextClassificationModel F) (label text offsets : list Z) :
  batch_ok m (label, text, offsets) = true ->
  forallb (index_ok m) text = true
  /\ offsets_ok offsets (Z.of_nat (length text)) = true
  /\ nondecreasing offsets = true
  /\ length offsets = length label
  /\ forallb (target_ok (num_class m)) label = true
  /\ (0 < length label)%nat
  /\ (0 < num_class m)%nat.
Proof.
  unfold batch_ok. rewrite !andb_true_iff, negb_true_iff.
  intros ((((((H1 & H2) & H3) & H4) & H5) & H6) & H7).
  apply Nat.eqb_eq in H4. apply Nat.eqb_neq in H6. apply Nat.ltb_lt in H7.
  repeat split; try assumption; lia.
Qed.

Lemma batch_ok_shape (m m' : TextClassificationModel F) (b : Batch) :
  same_shape m m' -> batch_ok m' b = batch_ok m b.
Proof.
  intros (Hv & _ & Hc). destruct b as [[label text] offsets].
  unfold batch_ok, index_ok. now rewrite Hv, Hc.
Qed.

(** What one batch contributes to a pass: the logits, that the loss does
    not raise, and the predicted classes. *)
Lemma batch_ok_run (m : TextClassificationModel F) (label text offsets : list Z) :
  batch_ok m (label, text, offsets) = true ->
  exists logits pred,
    forward m text offsets = Some logits
    /\ criterion m logits label = Some tt
    /\ argmax1 logits = Some pred
    /\ predictions m (label, text, offsets) = Some pred.
Proof.
  intros Hok. apply batch_ok_parts in Hok as (Hi & Ho & _ & Hlen & Ht & _ & Hc).
  destruct (forward_Some m text offsets Hi Ho) as (logits & Hf & Hl & Hrows).
  destruct (argmax1_Some (num_class m) logits Hc Hrows) as (pred & Hp & _).
  exists logits, pred. repeat split; try assumption.
  - unfold criterion. rewrite Hl, Hlen, Nat.eqb_refl, Ht. reflexivity.
  - unfold predictions. rewrite Hf. exact Hp.
Qed.

Lemma count_correct_nonneg (pred label : list Z) : 0 <= count_correct pred label.
Proof. unfold count_correct. lia. Qed.

(** ** Evaluation *)

Lemma evaluate_batch_Some (m : TextClassificationModel F) (a c idx : Z) (b : Batch) :
  batch_ok m b = true ->
  evaluate_batch m (a, c) (idx, b) = Some (a + correct_count m b, c + sample_count b).
Proof.
  destruct b as [[label text] offsets]. intros Hok.
  destruct (batch_ok_run m label text offsets Hok) as (logits & pred & Hf & Hc & Hp & Hpr).
  unfold evaluate_batch, correct_count, sample_count.
  rewrite Hf. cbn [mbind option_bind]. rewrite Hc. cbn [mbind option_bind].
  rewrite Hp. cbn [mbind option_bind]. rewrite Hpr. reflexivity.
Qed.

Lemma evaluate_loop (m : TextClassificationModel F) (dataloader : list Batch) :
  forall (a c : Z) (g : nat -> Z),
    forallb (batch_ok m) dataloader = true ->
    for_each (evaluate_batch m) (a, c) (imap (fun i x => (g i, x)) dataloader)
    = Some (a + total (map (correct_count m) dataloader),
            c + total (map sample_count dataloader)).
Proof.
  induction dataloader as [|b rest IH]; intros a c g Hall.
  - cbn. f_equal. f_equal; lia.
  - cbn [forallb] in Hall. apply andb_true_iff in Hall as [Hb Hrest].
    cbn [imap for_each]. rewrite (evaluate_batch_Some m a c (g 0%nat) b Hb).
    cbn [mbind option_bind].
    rewrite (IH _ _ (fun i => g (S i)) Hrest).
    cbn [map]. unfold total. cbn [foldr]. f_equal. f_equal; lia.
Qed.

Lemma sample_count_pos (m : TextClassificationModel F) (dataloader : list Batch) :
  dataloader <> [] ->
  forallb (batch_ok m) dataloader = true ->
  0 < total (map sample_count dataloader).
Proof.
  intros Hne Hall.
  assert (Hnn : forall l : list Batch, 0 <= total (map sample_count l)).
  { induction l as [|b l IH]; unfold total in *; cbn; [lia|]. unfold sample_count at 1. lia. }
  destruct dataloader as [|[[label text] offsets] rest]; [congruence|].
  cbn [forallb] in Hall. apply andb_true_iff in Hall as [Hb _].
  apply batch_ok_parts in Hb as (_ & _ & _ & _ & _ & Hl & _).
  specialize (Hnn rest). unfold total in *. cbn. unfold sample_count at 1. cbn. lia.
Qed.

(** C6, as the code has it.  For a data loader that yields at least one
    batch, every batch being one the model and the loss accept, [evaluate]
    computes the logits of each batch by the forward pass that training
    applies to the same parameters, returns the model with its three
    parameter tensors and its gradients as they were (only the mode flag is
    set to evaluation), and returns the overall accuracy: the number of
    samples whose predicted class is their label, divided by the number of
    samples. *)
Theorem evaluate_accuracy (m : TextClassificationModel F) (dataloader : list Batch) :
  dataloader <> [] ->
  forallb (batch_ok m) dataloader = true ->
  exists (accuracy : F) (m' : TextClassificationModel F),
    evaluate m dataloader = Some (accuracy, m')
    /\ m' = set_training false m
    /\ embedding_weight m' = embedding_weight m
    /\ fc_weight m' = fc_weight m
    /\ fc_bias m' = fc_bias m
    /\ grad m' = grad m
    /\ (forall label text offsets, In (label, text, offsets) dataloader ->
          exists logits pred,
            forward m' text offsets = Some logits
            /\ forward (set_grad None (set_training true m)) text offsets = Some logits
            /\ argmax1 logits = Some pred
            /\ correct_count m (label, text, offsets) = count_correct pred label)
    /\ 0 < total (map sample_count dataloader)
    /\ accuracy = fdiv (f_of_Z (total (map (correct_count m) dataloader)))
                       (f_of_Z (total (map sample_count dataloader))).
Proof.
  intros Hne Hall.
  pose proof (sample_count_pos m dataloader Hne Hall) as Hpos.
  assert (Hall' : forallb (batch_ok (set_training false m)) dataloader = true).
  { rewrite forallb_forall in *. intros b Hb.
    rewrite (batch_ok_shape m (set_training false m) b); [apply Hall, Hb|].
    repeat split. }
  eexists. exists (set_training false m). split.
  - unfold evaluate, enumerate.
    rewrite (evaluate_loop (set_training false m) dataloader 0 0 _ Hall').
    cbn [mbind option_bind]. rewrite !Z.add_0_l.
    replace (total (map sample_count dataloader) =? 0) with false
      by (symmetry; apply Z.eqb_neq; lia).
    reflexivity.
  - repeat split; try assumption.
    intros label text offsets Hin.
    assert (Hok : batch_ok m (label, text, offsets) = true).
    { rewrite forallb_forall in Hall. apply Hall. exact Hin. }
    destruct (batch_ok_run m label text offsets Hok) as (logits & pred & Hf & _ & Hp & Hpr).
    exists logits, pred. repeat split; try assumption.
    unfold correct_count. rewrite Hpr. reflexivity.
Qed.

End Forward.

Lemma evaluate_accuracy_witness :
  exists m' : TextClassificationModel Q,
    evaluate demo_model demo_eval_dataloader = Some ((2 # 3)%Q, m')
    /\ m' = set_training false demo_model.
Proof.
  destruct (evaluate_accuracy demo_model demo_eval_dataloader)
    as (accuracy & m' & He & Hm & _ & _ & _ & _ & _ & _ & Ha).
  - discriminate.
  - vm_compute. reflexivity.
  - exists m'. split; [|exact Hm].
    rewrite He. rewrite Ha. vm_compute. reflexivity.
Defined.

(** C6, as stated, fails on a data loader that yields no batch: no sample is
    counted and the division of the counts raises. *)
Lemma evaluate_empty_dataloader : evaluate demo_model [] = None.
Proof. vm_compute. reflexivity. Qed.

(** ** Samples without tokens *)

Section EmptyBag.
Context {F : Type} `{Scalar F}.

Lemma bag_bounds_lookup (offsets : list Z) (n : Z) (i : nat) (lo hi : Z) :
  offsets !! i = Some lo ->
  (drop 1 offsets ++ [n]) !! i = Some hi ->
  bag_bounds offsets n !! i = Some (lo, hi).
Proof.
  intros Hlo Hhi. unfold bag_bounds. apply lookup_zip_Some. split; assumption.
Qed.

Lemma bag_empty (text : list Z) (o : Z) : bag text (o, o) = [].
Proof. unfold bag. cbn [fst snd]. now rewrite Z.sub_diag. Qed.

(** C7.  For a token tensor whose indices are inside the embedding table and
    offsets that start at 0, do not decrease and stay inside the tensor, the
    forward pass returns one row of logits per offset; and for every sample
    whose offset equals the next offset (the length of the tensor, for the
    last sample) the embedding bag gives the zero vector, so that the logits
    of that sample are the linear layer applied to the zero vector. *)
Theorem forward_zero_token_sample (m : TextClassificationModel F) (text offsets : list Z) :
  forallb (index_ok m) text = true ->
  offsets_ok offsets (Z.of_nat (length text)) = true ->
  nondecreasing offsets = true ->
  exists embedded logits,
    embedding_bag m text offsets = Some embedded
    /\ forward m text offsets = Some logits
    /\ length logits = length offsets
    /\ (forall (i : nat) (o : Z),
          offsets !! i = Some o ->
          (drop 1 offsets ++ [Z.of_nat (length text)]) !! i = Some o ->
          embedded !! i = Some (replicate (embed_dim m) fzero)
          /\ logits !! i = Some (linear m (replicate (embed_dim m) fzero))).
Proof.
  intros Hi Ho _.
  pose proof (embedding_bag_Some m text offsets Hi Ho) as He.
  exists (map (fun b => bag_mean m (bag text b))
            (bag_bounds offsets (Z.of_nat (length text)))).
  eexists. split; [exact He|]. split.
  - unfold forward. rewrite He. reflexivity.
  - split.
    + now rewrite !length_map, bag_bounds_length.
    + intros i o Hlo Hhi.
      pose proof (bag_bounds_lookup offsets _ i o o Hlo Hhi) as Hb.
      assert (Hrow : map (fun b => bag_mean m (bag text b))
                       (bag_bounds offsets (Z.of_nat (length text))) !! i
                     = Some (replicate (embed_dim m) fzero)).
      { change (map ?f ?l) with (f <$> l).
        rewrite list_lookup_fmap, Hb. cbn. now rewrite bag_empty, bag_mean_nil. }
      split; [exact Hrow|].
      change (map (linear m) ?l) with (linear m <$> l).
      rewrite list_lookup_fmap.
      change ((fun b => bag_mean m (bag text b)) <$> ?l)
        with (map (fun b => bag_mean m (bag text b)) l).
      rewrite Hrow. reflexivity.
Qed.

End EmptyBag.

Lemma forward_zero_token_sample_witness :
  exists logits : list (list Q),
    forward demo_model [1; 6; 4; 2; 0] [0; 2; 2] = Some logits
    /\ logits !! 1%nat = Some (linear demo_model (replicate 3 0%Q)).
Proof.
  destruct (forward_zero_token_sample demo_model [1; 6; 4; 2; 0] [0; 2; 2])
    as (embedded & logits & _ & Hf & _ & Hz); try reflexivity.
  exists logits. split; [exact Hf|].
  apply (Hz 1%nat 2); reflexivity.
Defined.

(** ** Initial weights *)

(** C8.  After [init_weights], with the generator yielding samples of the
    unit interval, every entry of the embedding table and of the weight
    matrix of the linear layer lies between -0.5 and 0.5, and every entry of
    the bias of the linear layer is zero. *)
Theorem init_weights_range (draws : nat -> Q) (m : TextClassificationModel Q) :
  (forall n : nat, (0 <= draws n)%Q /\ (draws n < 1)%Q) ->
  (forall t k : nat, (t < vocab_size (init_weights draws m))%nat ->
     (k < embed_dim (init_weights draws m))%nat ->
     (- (1 # 2) <= embedding_weight (init_weights draws m) t k)%Q
     /\ (embedding_weight (init_weights draws m) t k <= 1 # 2)%Q)
  /\ (forall j k : nat, (j < num_class (init_weights draws m))%nat ->
        (k < embed_dim (init_weights draws m))%nat ->
        (- (1 # 2) <= fc_weight (init_weights draws m) j k)%Q
        /\ (fc_weight (init_weights draws m) j k <= 1 # 2)%Q)
  /\ (forall j : nat, (j < num_class (init_weights draws m))%nat ->
        fc_bias (init_weights draws m) j = 0%Q).
Proof.
  intros Hd.
  assert (Hu : forall u : Q, (0 <= u)%Q -> (u < 1)%Q ->
            (- (1 # 2) <= u * (1 / 2 - - (1 / 2)) + - (1 / 2))%Q
            /\ (u * (1 / 2 - - (1 / 2)) + - (1 / 2) <= 1 # 2)%Q).
  { intros u H0 H1.
    assert (Hc : (u * (1 / 2 - - (1 / 2)) + - (1 / 2) == u - (1 # 2))%Q) by field.
    rewrite Hc. split; lra. }
  repeat split.
  - apply (Hu _ (proj1 (Hd _)) (proj2 (Hd _))).
  - apply (Hu _ (proj1 (Hd _)) (proj2 (Hd _))).
  - apply (Hu _ (proj1 (Hd _)) (proj2 (Hd _))).
  - apply (Hu _ (proj1 (Hd _)) (proj2 (Hd _))).
Qed.

Lemma demo_draws_unit (n : nat) : (0 <= demo_draws n)%Q /\ (demo_draws n < 1)%Q.
Proof.
  unfold demo_draws, Qle, Qlt. cbn.
  pose proof (Nat.mod_upper_bound n 7). lia.
Qed.

Lemma init_weights_range_witness :
  (- (1 # 2) <= embedding_weight demo_model 5 2)%Q
  /\ (embedding_weight demo_model 5 2 <= 1 # 2)%Q.
Proof.
  apply (proj1 (init_weights_range demo_draws _ demo_draws_unit) 5%nat 2%nat);
    cbn; lia.
Defined.

(** ** The epoch loop *)

Section Epochs.
Context {F : Type} `{Scalar F} `{Autograd F}.

Lemma same_shape_refl (m : TextClassificationModel F) : same_shape m m.
Proof. repeat split. Qed.

Lemma same_shape_trans (m1 m2 m3 : TextClassificationModel F) :
  same_shape m1 m2 -> same_shape m2 m3 -> same_shape m1 m3.
Proof. unfold same_shape. intros (? & ? & ?) (? & ? & ?). repeat split; congruence. Qed.

Lemma optimizer_step_shape (lr0 : F) (m : TextClassificationModel F) :
  same_shape m (optimizer_step lr0 m).
Proof. unfold optimizer_step. destruct (grad m); repeat split. Qed.

Lemma clip_grads_shape (m m' : TextClassificationModel F) :
  clip_grads m = Some m' -> same_shape m m' /\ training m' = training m.
Proof. intros Hm. apply clip_grads_inv in Hm as [g ->]. repeat split. Qed.

Lemma clip_grads_Some (m : TextClassificationModel F) :
  clip_accepts -> is_Some (clip_grads m).
Proof.
  intros Hclip. unfold clip_grads. destruct (grad m) as [g|]; [|eauto].
  destruct (Hclip g (fdiv (f_of_Z 1) (f_of_Z 10))) as [g' ->]. cbn. eauto.
Qed.

Lemma forallb_batch_ok_shape (m m' : TextClassificationModel F) (l : list Batch) :
  same_shape m m' -> forallb (batch_ok m') l = forallb (batch_ok m) l.
Proof.
  intros Hs. induction l as [|b l IH]; cbn [forallb]; [reflexivity|].
  now rewrite IH, (batch_ok_shape m m' b Hs).
Qed.

Lemma train_batch_shape (epoch batches : Z) (lr0 : F) (st st' : TrainState) (ib : Z * Batch) :
  train_batch epoch batches lr0 st ib = Some st' ->
  same_shape (t_model st) (t_model st') /\ training (t_model st') = training (t_model st).
Proof.
  destruct ib as [idx [[label text] offsets]]. intros Hb.
  apply train_batch_inv in Hb as (_ & m1 & _ & _ & _ & Hk & _ & -> & _).
  apply clip_grads_shape in Hk as [Hs Ht]. split.
  - eapply same_shape_trans; [|apply optimizer_step_shape].
    eapply same_shape_trans; [|exact Hs]. repeat split.
  - unfold optimizer_step. destruct (grad m1); cbn [training]; rewrite Ht; reflexivity.
Qed.

Lemma train_batch_Some (epoch batches : Z) (lr0 : F) (st : TrainState) (idx : Z) (b : Batch) :
  clip_accepts ->
  batch_ok (t_model st) b = true ->
  0 <= t_total_count st ->
  exists st', train_batch epoch batches lr0 st (idx, b) = Some st'
    /\ same_shape (t_model st) (t_model st')
    /\ 0 <= t_total_count st'
    /\ t_steps st' = S (t_steps st).
Proof.
  destruct b as [[label text] offsets]. intros Hclip Hok Hc.
  assert (Hok' : batch_ok (zero_grad (t_model st)) (label, text, offsets) = true).
  { rewrite (batch_ok_shape (t_model st)); [exact Hok | repeat split]. }
  destruct (batch_ok_run _ label text offsets Hok') as (logits & pred & Hf & Hcr & Hp & _).
  apply batch_ok_parts in Hok as (_ & _ & _ & _ & _ & Hl & _).
  destruct (clip_grads_Some (backward (zero_grad (t_model st)) (label, text, offsets)) Hclip)
    as [m1 Hk].
  assert (Hret : exists st', train_batch epoch batches lr0 st (idx, (label, text, offsets))
                             = Some st' /\ 0 <= t_total_count st').
  { unfold train_batch.
    rewrite Hf. cbn [mbind option_bind]. rewrite Hcr. cbn [mbind option_bind].
    rewrite Hk. cbn [mbind option_bind]. rewrite Hp. cbn [mbind option_bind].
    destruct ((idx mod log_interval =? 0) && (0 <? idx)).
    - replace (t_total_count st + Z.of_nat (length label) =? 0) with false
        by (symmetry; apply Z.eqb_neq; lia).
      eexists. split; [reflexivity|]. cbn. lia.
    - eexists. split; [reflexivity|]. cbn. lia. }
  destruct Hret as (st' & Hst' & Hc').
  exists st'. split; [exact Hst'|]. split; [|split; [exact Hc'|]].
  - eapply train_batch_shape, Hst'.
  - apply train_batch_inv in Hst' as (_ & _ & _ & _ & _ & _ & _ & _ & Hn & _). exact Hn.
Qed.

Lemma train_loop_Some (epoch batches : Z) (lr0 : F) (dataloader : list Batch) :
  clip_accepts ->
  forall (st : TrainState) (g : nat -> Z),
    forallb (batch_ok (t_model st)) dataloader = true ->
    0 <= t_total_count st ->
    exists st',
      for_each (train_batch epoch batches lr0) st (imap (fun i x => (g i, x)) dataloader)
      = Some st'
      /\ same_shape (t_model st) (t_model st')
      /\ t_steps st' = (t_steps st + length dataloader)%nat.
Proof.
  intros Hclip. induction dataloader as [|b rest IH]; intros st g Hall Hc.
  - exists st. cbn. repeat split. lia.
  - cbn [forallb] in Hall. apply andb_true_iff in Hall as [Hb Hrest].
    destruct (train_batch_Some epoch batches lr0 st (g 0%nat) b Hclip Hb Hc)
      as (st1 & Hst1 & Hs1 & Hc1 & Hn1).
    rewrite <- (forallb_batch_ok_shape _ _ rest Hs1) in Hrest.
    destruct (IH st1 (fun i => g (S i)) Hrest Hc1) as (st' & Hst' & Hs' & Hn').
    exists st'. cbn [imap for_each]. rewrite Hst1. cbn [mbind option_bind].
    split; [exact Hst'|]. split.
    + eapply same_shape_trans; eassumption.
    + rewrite Hn', Hn1. cbn [length]. lia.
Qed.

Lemma train_Some (epoch : Z) (lr0 : F) (m : TextClassificationModel F) (dataloader : list Batch) :
  clip_accepts ->
  forallb (batch_ok m) dataloader = true ->
  exists m' lines,
    train epoch lr0 m dataloader = Some (m', lines, length dataloader)
    /\ same_shape m m'.
Proof.
  intros Hclip Hall. unfold train, enumerate.
  edestruct (train_loop_Some epoch (Z.of_nat (length dataloader)) lr0 dataloader Hclip
               {| t_model := set_training true m; t_total_acc := 0; t_total_count := 0;
                  t_out := []; t_steps := O |} Z.of_nat)
    as (st' & Hst' & Hs' & Hn').
  - cbn [t_model]. rewrite (forallb_batch_ok_shape m); [exact Hall | repeat split].
  - cbn. lia.
  - rewrite Hst'. cbn [mbind option_bind]. cbn [t_steps] in Hn'.
    rewrite Hn'. exists (t_model st'), (t_out st'). split; [reflexivity|].
    eapply same_shape_trans; [|exact Hs']. repeat split.
Qed.

(** With a clipping that refuses the gradient, the first batch ends the
    pass: either the forward pass or the loss refuses the batch, or the
    clipping raises. *)
Lemma train_clip_refuses (epoch : Z) (lr0 : F) (m : TextClassificationModel F)
    (dataloader : list Batch) :
  clip_refuses -> dataloader <> [] -> train epoch lr0 m dataloader = None.
Proof.
  intros Hclip Hne. destruct dataloader as [|[[label text] offsets] rest]; [congruence|].
  unfold train, enumerate. cbn [imap for_each].
  assert (Hb : forall st : TrainState,
            train_batch epoch (Z.of_nat (length ((label, text, offsets) :: rest))) lr0 st
              (Z.of_nat 0, (label, text, offsets)) = None).
  { intros st. unfold train_batch.
    destruct (forward _ text offsets); cbn [mbind option_bind]; [|reflexivity].
    destruct (criterion _ _ label); cbn [mbind option_bind]; [|reflexivity].
    unfold clip_grads, backward. cbn [grad set_grad zero_grad].
    rewrite Hclip. reflexivity. }
  rewrite Hb. reflexivity.
Qed.

Lemma evaluate_Some (m : TextClassificationModel F) (dataloader : list Batch) :
  dataloader <> [] ->
  forallb (batch_ok m) dataloader = true ->
  exists accuracy, evaluate m dataloader = Some (accuracy, set_training false m).
Proof.
  intros Hne Hall.
  pose proof (sample_count_pos m dataloader Hne Hall) as Hpos.
  unfold evaluate, enumerate.
  rewrite (evaluate_loop (set_training false m) dataloader 0 0).
  - cbn [mbind option_bind]. rewrite !Z.add_0_l.
    replace (total (map sample_count dataloader) =? 0) with false
      by (symmetry; apply Z.eqb_neq; lia).
    eauto.
  - rewrite (forallb_batch_ok_shape m); [exact Hall | repeat split].
Qed.

(** A pass that returns has gone through its whole loader. *)
Lemma train_loop_steps (epoch batches : Z) (lr0 : F) (l : list (Z * Batch)) :
  forall st st' : TrainState,
    for_each (train_batch epoch batches lr0) st l = Some st' ->
    t_steps st' = (t_steps st + length l)%nat.
Proof.
  induction l as [|[idx [[label text] offsets]] l IH]; intros st st' Hl; cbn [for_each] in Hl.
  - inversion Hl; subst. cbn. lia.
  - destruct (train_batch epoch batches lr0 st (idx, (label, text, offsets))) as [st1|] eqn:E1;
      cbn [mbind option_bind] in Hl; [|discriminate].
    rewrite (IH st1 st' Hl). cbn [length].
    apply train_batch_inv in E1 as (_ & _ & _ & _ & _ & _ & _ & _ & Hn & _).
    lia.
Qed.

Lemma train_steps (epoch : Z) (lr0 : F) (m m' : TextClassificationModel F)
    (dataloader : list Batch) (lines : list (Line F)) (steps : nat) :
  train epoch lr0 m dataloader = Some (m', lines, steps) -> steps = length dataloader.
Proof.
  unfold train. intros Ht.
  destruct (for_each _ _ (enumerate dataloader)) as [st|] eqn:E;
    cbn [mbind option_bind] in Ht; [|discriminate].
  inversion Ht; subst. rewrite (train_loop_steps _ _ _ _ _ _ E).
  unfold enumerate. rewrite length_imap. reflexivity.
Qed.

(** A turn of the epoch loop that returns is an epoch: the call of [train],
    then the call of [evaluate] on the model [train] returned. *)
Lemma epoch_body_epoch (train_dataloader valid_dataloader : Z -> list Batch)
    (st st' : Script) (epoch : Z) :
  epoch_body train_dataloader valid_dataloader st epoch = Some st' ->
  epoch_of train_dataloader valid_dataloader epoch st st'.
Proof.
  unfold epoch_body. intros Hb.
  destruct (train epoch (lr st) (model st) (train_dataloader epoch))
    as [[[m lines] steps]|] eqn:Et; cbn [mbind option_bind] in Hb; [|discriminate].
  destruct (evaluate m (valid_dataloader epoch)) as [[accu_val m']|] eqn:Ee;
    cbn [mbind option_bind] in Hb; [|discriminate].
  destruct (end_of_epoch _ _ _ _) as [[s lr'] best].
  apply (inj Some) in Hb. subst st'. cbn [model stdout].
  exists m, lines, accu_val.
  rewrite <- (train_steps _ _ _ _ _ _ _ Et). repeat split; assumption.
Qed.

(** A turn of the epoch loop that does not return has had a call raise. *)
Lemma epoch_body_raises (train_dataloader valid_dataloader : Z -> list Batch)
    (st : Script) (epoch : Z) :
  epoch_body train_dataloader valid_dataloader st epoch = None ->
  epoch_raises train_dataloader valid_dataloader epoch st.
Proof.
  unfold epoch_body, epoch_raises. intros Hb.
  destruct (train epoch (lr st) (model st) (train_dataloader epoch))
    as [[[m lines] steps]|] eqn:Et; cbn [mbind option_bind] in Hb; [|left; reflexivity].
  right. exists m, lines, steps. split; [reflexivity|].
  destruct (evaluate m (valid_dataloader epoch)) as [[accu_val m']|] eqn:Ee;
    cbn [mbind option_bind] in Hb; [|reflexivity].
  destruct (end_of_epoch _ _ _ _) as [[s lr'] best]. discriminate.
Qed.

(** The loop over a list of epochs: when it returns, the epochs of the list
    have been run, each one once and in order; when it does not, the epochs
    before some epoch of the list have been run and a call raised in that
    epoch. *)
Lemma epochs_returned (train_dataloader valid_dataloader : Z -> list Batch) (epochs : list Z) :
  forall st st' : Script,
    for_each (epoch_body train_dataloader valid_dataloader) st epochs = Some st' ->
    epochs_run train_dataloader valid_dataloader epochs st st'.
Proof.
  induction epochs as [|e epochs IH]; intros st st' Hl; cbn [for_each] in Hl.
  - apply (inj Some) in Hl. subst st'. reflexivity.
  - destruct (epoch_body train_dataloader valid_dataloader st e) as [st1|] eqn:E1;
      cbn [mbind option_bind] in Hl; [|discriminate].
    exists st1. split; [apply epoch_body_epoch, E1 | apply IH, Hl].
Qed.

Lemma epochs_raised (train_dataloader valid_dataloader : Z -> list Batch) (epochs : list Z) :
  forall st : Script,
    for_each (epoch_body train_dataloader valid_dataloader) st epochs = None ->
    exists (before : list Z) (e : Z) (after : list Z) (st1 : Script),
      epochs = before ++ e :: after
      /\ epochs_run train_dataloader valid_dataloader before st st1
      /\ epoch_raises train_dataloader valid_dataloader e st1.
Proof.
  induction epochs as [|e epochs IH]; intros st Hl; cbn [for_each] in Hl; [discriminate|].
  destruct (epoch_body train_dataloader valid_dataloader st e) as [st1|] eqn:E1;
    cbn [mbind option_bind] in Hl.
  - destruct (IH st1 Hl) as (before & e' & after & st2 & -> & Hrun & Hr).
    exists (e :: before), e', after, st2. split; [reflexivity|]. split; [|exact Hr].
    exists st1. split; [apply epoch_body_epoch, E1 | exact Hrun].
  - exists [], e, epochs, st. split; [reflexivity|]. split; [reflexivity|].
    apply epoch_body_raises, E1.
Qed.

Lemma epoch_body_Some (train_dataloader valid_dataloader : Z -> list Batch)
    (st : Script) (epoch : Z) :
  clip_accepts ->
  forallb (batch_ok (model st)) (train_dataloader epoch) = true ->
  forallb (batch_ok (model st)) (valid_dataloader epoch) = true ->
  valid_dataloader epoch <> [] ->
  exists st', epoch_body train_dataloader valid_dataloader st epoch = Some st'
    /\ same_shape (model st) (model st').
Proof.
  intros Hclip Ht Hv Hne.
  destruct (train_Some epoch (lr st) (model st) _ Hclip Ht) as (m & lines & Etr & Hs).
  rewrite <- (forallb_batch_ok_shape _ _ _ Hs) in Hv.
  destruct (evaluate_Some m _ Hne Hv) as (accu_val & Eev).
  unfold epoch_body. rewrite Etr. cbn [mbind option_bind].
  rewrite Eev. cbn [mbind option_bind].
  destruct (end_of_epoch _ _ _ _) as [[s lr'] best].
  eexists. split; [reflexivity|]. cbn [model].
  eapply same_shape_trans; [exact Hs | repeat split].
Qed.

Lemma epochs_Some (train_dataloader valid_dataloader : Z -> list Batch) (epochs : list Z) :
  clip_accepts ->
  forall st : Script,
    (forall e, In e epochs ->
       forallb (batch_ok (model st)) (train_dataloader e) = true
       /\ forallb (batch_ok (model st)) (valid_dataloader e) = true
       /\ valid_dataloader e <> []) ->
    exists st', for_each (epoch_body train_dataloader valid_dataloader) st epochs = Some st'.
Proof.
  intros Hclip. induction epochs as [|e epochs IH]; intros st Hok; cbn [for_each].
  - eauto.
  - destruct (Hok e (or_introl eq_refl)) as (Ht & Hv & Hne).
    destruct (epoch_body_Some train_dataloader valid_dataloader st e Hclip Ht Hv Hne)
      as (st1 & E1 & Hs1).
    rewrite E1. cbn [mbind option_bind]. apply IH.
    intros e' He'. destruct (Hok e' (or_intror He')) as (Ht' & Hv' & Hne').
    rewrite !(forallb_batch_ok_shape _ _ _ Hs1). repeat split; assumption.
Qed.

Lemma epochs_of_script : Py.range 1 (EPOCHS + 1) = [1; 2; 3; 4; 5; 6; 7; 8; 9; 10].
Proof. reflexivity. Qed.

(** C9.  The epoch loop runs the epochs 1 to 10, each one once and in this
    order, and nothing but an exception ends it earlier.
    - Whenever the loop returns, it has gone through ten epochs: in epoch
      [e], [train] was called on the batches of the training loader and
      returned after an optimizer step for every batch, then [evaluate] was
      called on the batches of the validation loader with the model that
      [train] had returned, and the next epoch started from the model that
      [evaluate] left.
    - Whenever the loop does not return, it has gone in this way through the
      epochs before some epoch [e] of the ten, and in epoch [e] the call of
      [train], or after it the call of [evaluate], raised.
    - The loop does return when the clipping of the library accepts the
      gradients and, in each of the ten epochs, the batches of both loaders
      are ones the model and the loss accept and the validation loader
      yields at least one batch. *)
Theorem epoch_loop_ten_epochs (train_dataloader valid_dataloader : Z -> list Batch)
    (m : TextClassificationModel F) :
  (forall st : Script,
     epoch_loop train_dataloader valid_dataloader (script_init m) = Some st ->
     epochs_run train_dataloader valid_dataloader [1; 2; 3; 4; 5; 6; 7; 8; 9; 10]
       (script_init m) st)
  /\ (epoch_loop train_dataloader valid_dataloader (script_init m) = None ->
      exists (before : list Z) (e : Z) (after : list Z) (st : Script),
        [1; 2; 3; 4; 5; 6; 7; 8; 9; 10] = before ++ e :: after
        /\ epochs_run train_dataloader valid_dataloader before (script_init m) st
        /\ epoch_raises train_dataloader valid_dataloader e st)
  /\ (clip_accepts ->
      (forall e : Z, 1 <= e <= EPOCHS ->
         forallb (batch_ok m) (train_dataloader e) = true
         /\ forallb (batch_ok m) (valid_dataloader e) = true
         /\ valid_dataloader e <> []) ->
      exists st : Script,
        epoch_loop train_dataloader valid_dataloader (script_init m) = Some st).
Proof.
  unfold epoch_loop. rewrite epochs_of_script. split; [|split].
  - intros st Hst. apply epochs_returned, Hst.
  - intros Hst. apply epochs_raised, Hst.
  - intros Hclip Hok. apply epochs_Some; [exact Hclip|].
    cbn [model script_init]. intros e He. apply Hok. unfold EPOCHS. cbn [In] in He. lia.
Qed.

End Epochs.

Lemma demo_clip_accepts : clip_accepts (F := Q).
Proof. intros g max_norm. cbn. eauto. Qed.

Lemma epoch_loop_ten_epochs_witness :
  (exists st : Script (F := Q),
     epoch_loop demo_dataloader demo_dataloader (script_init demo_model) = Some st
     /\ epochs_run demo_dataloader demo_dataloader [1; 2; 3; 4; 5; 6; 7; 8; 9; 10]
          (script_init demo_model) st)
  /\ (exists (before : list Z) (e : Z) (after : list Z) (st : Script (F := Q)),
        [1; 2; 3; 4; 5; 6; 7; 8; 9; 10] = before ++ e :: after
        /\ epochs_run demo_dataloader demo_gap_dataloader before (script_init demo_model) st
        /\ epoch_raises demo_dataloader demo_gap_dataloader e st).
Proof.
  split.
  - destruct (epoch_loop_ten_epochs demo_dataloader demo_dataloader demo_model)
      as (Hrun & _ & Hret).
    destruct (Hret demo_clip_accepts) as (st & Hst).
    + intros e _. split; [reflexivity | split; [reflexivity | discriminate]].
    + exists st. split; [exact Hst | exact (Hrun st Hst)].
  - apply (proj1 (proj2 (epoch_loop_ten_epochs demo_dataloader demo_gap_dataloader demo_model))).
    vm_compute. reflexivity.
Defined.

(** With a clipping that refuses the gradient, the first training pass of the
    script raises, and so the epoch loop does. *)
Example train_with_refusing_clip :
  @train Q Q_Scalar strict_autograd 1 5%Q demo_model (demo_dataloader 1) = None
  /\ @epoch_loop Q Q_Scalar strict_autograd demo_dataloader demo_dataloader
       (script_init demo_model) = None.
Proof. split; vm_compute; reflexivity. Qed.

(** ** Prediction *)

Lemma stoi_of_bound (tokens : list string) :
  forall (i : Z) (t : string) (j : Z),
    Torchtext.stoi_of i tokens !! t = Some j -> i <= j < i + Z.of_nat (length tokens).
Proof.
  induction tokens as [|t0 r IH]; intros i t j Hj; cbn [Torchtext.stoi_of] in Hj.
  - rewrite lookup_empty in Hj. discriminate.
  - rewrite lookup_insert in Hj. cbn [length]. destruct (decide (t0 = t)).
    + inversion Hj; subst. lia.
    + apply IH in Hj. lia.
Qed.

Lemma vocab_index_range (train_iter : list Sample) (v : Torchtext.Vocab) (t : string) :
  vocab train_iter = Some v ->
  0 <= default 0 (Torchtext.stoi v !! t) < Torchtext.len v.
Proof.
  intros Hv. destruct (vocab_unk train_iter) as (v' & Hv' & _ & _ & tokens & Hitos & Hstoi).
  rewrite Hv in Hv'. inversion Hv'; subst v'.
  unfold Torchtext.len. rewrite Hstoi, Hitos.
  destruct (Torchtext.stoi_of 0 ("<unk>"%string :: tokens) !! t) as [j|] eqn:Ej; cbn [default from_option id].
  - apply stoi_of_bound in Ej. lia.
  - cbn [length]. lia.
Qed.

Section Predict.
Context {F : Type} `{Scalar F}.

Lemma text_pipeline_index_ok (train_iter : list Sample) (v : Torchtext.Vocab)
    (m : TextClassificationModel F) (text : string) (tokens : list Z) :
  vocab train_iter = Some v ->
  Z.of_nat (vocab_size m) = Torchtext.len v ->
  text_pipeline v text = Some tokens ->
  forallb (index_ok m) tokens = true.
Proof.
  intros Hv Hsize Ht.
  destruct (vocab_unk train_iter) as (v' & Hv' & _ & Hd & _).
  rewrite Hv in Hv'. inversion Hv'; subst v'.
  unfold text_pipeline in Ht. rewrite (lookup_indices_default v 0 _ Hd) in Ht.
  apply (inj Some) in Ht. subst tokens. apply forallb_forall. intros j Hj.
  apply in_map_iff in Hj as (t & <- & _).
  pose proof (vocab_index_range train_iter v t Hv).
  unfold index_ok. apply andb_true_iff. split; [apply Z.leb_le | apply Z.ltb_lt]; lia.
Qed.

Lemma forward_single_bag (m : TextClassificationModel F) (tokens : list Z) :
  forallb (index_ok m) tokens = true ->
  exists row, forward m tokens [0] = Some [row] /\ length row = num_class m.
Proof.
  intros Hi.
  destruct (forward_Some m tokens [0] Hi) as (logits & Hf & Hl & Hrows).
  - unfold offsets_ok. cbn [List.last]. apply andb_true_iff.
    split; [reflexivity | apply Z.leb_le; lia].
  - destruct logits as [|row [|row' rest]]; cbn [length] in Hl; try lia.
    exists row. split; [exact Hf|]. now inversion Hrows.
Qed.

Lemma predict_empty (m : TextClassificationModel F) (v : Torchtext.Vocab) (text : string) :
  text_pipeline v text = Some [] -> predict m v text = None.
Proof. intros Ht. unfold predict. rewrite Ht. reflexivity. Qed.

(** C10.  With the vocabulary of the script and a model whose embedding
    table has one row per entry of the vocabulary and which has at least one
    class, [predict] returns, for every text whose encoded token sequence is
    not empty, the index of the greatest logit plus one, a number from 1 to
    the number of classes; with four classes that number is a key of
    [ag_news_label], and the last line of the script prints its category. *)
Theorem predict_in_label_range (train_iter : list Sample) (v : Torchtext.Vocab)
    (m : TextClassificationModel F) (text : string) (tokens : list Z) :
  vocab train_iter = Some v ->
  Z.of_nat (vocab_size m) = Torchtext.len v ->
  (0 < num_class m)%nat ->
  text_pipeline v text = Some tokens ->
  tokens <> [] ->
  exists (row : list F) (i : Z),
    forward m tokens [0] = Some [row]
    /\ argmax row = Some i
    /\ predict m v text = Some (i + 1)
    /\ 1 <= i + 1 <= Z.of_nat (num_class m)
    /\ (num_class m = 4%nat ->
        exists category : string,
          ag_news_label !! (i + 1) = Some category
          /\ final_print m v text = Some (Prediction category)).
Proof.
  intros Hv Hsize Hc Ht Hne.
  pose proof (text_pipeline_index_ok train_iter v m text tokens Hv Hsize Ht) as Hi.
  destruct (forward_single_bag m tokens Hi) as (row & Hf & Hrow).
  destruct (argmax_Some row) as (i & Ha).
  { destruct row; [cbn [length] in Hrow; lia | discriminate]. }
  pose proof (argmax_bound row i Ha) as Hb. rewrite Hrow in Hb.
  assert (Hp : predict m v text = Some (i + 1)).
  { unfold predict. rewrite Ht. cbn [mbind option_bind].
    destruct tokens as [|t r]; [congruence|].
    rewrite Hf. cbn [mbind option_bind]. rewrite Ha. reflexivity. }
  exists row, i. repeat split; try assumption; try lia.
  intros H4. rewrite H4 in Hb.
  assert (Hcases : i + 1 = 1 \/ i + 1 = 2 \/ i + 1 = 3 \/ i + 1 = 4) by lia.
  unfold final_print. rewrite Hp. cbn [mbind option_bind].
  destruct Hcases as [-> | [-> | [-> | ->]]]; eexists; split; vm_compute; reflexivity.
Qed.

End Predict.

Lemma predict_in_label_range_witness :
  exists (v : Torchtext.Vocab) (m : TextClassificationModel Q) (r : Z),
    vocab demo_corpus = Some v
    /\ predict m v "the oil" = Some r
    /\ 1 <= r <= 4.
Proof.
  destruct (vocab_unk demo_corpus) as (v & Hv & _ & Hd & _).
  pose (m := new_model (length (Torchtext.itos v)) 3 4 demo_draws).
  assert (Htok : tokenizer "the oil" = ["the"; "oil"]%string) by (vm_compute; reflexivity).
  destruct (predict_in_label_range demo_corpus v m "the oil"
              (map (fun t => default 0 (Torchtext.stoi v !! t)) ["the"; "oil"]%string))
    as (row & i & _ & _ & Hp & Hr & _).
  - exact Hv.
  - reflexivity.
  - cbn. lia.
  - unfold text_pipeline. rewrite Htok. apply lookup_indices_default, Hd.
  - discriminate.
  - exists v, m, (i + 1). repeat split; try assumption; cbn in Hr; lia.
Defined.

(** ** The batches of the collator are batches the model accepts *)

Lemma collate_loop_inv (v : Torchtext.Vocab) (batch : list Sample) :
  forall ls ts os ls' ts' os',
    collate_loop v (ls, ts, os) batch = Some (ls', ts', os') ->
    exists labels encoded,
      mapM label_pipeline (map fst batch) = Some labels
      /\ mapM (text_pipeline v) (map snd batch) = Some encoded
      /\ ls' = ls ++ labels /\ ts' = ts ++ encoded /\ os' = os ++ token_counts encoded.
Proof.
  induction batch as [|[lb tx] rest IH]; intros ls ts os ls' ts' os' Hl; cbn [collate_loop] in Hl.
  - inversion Hl; subst. exists [], []. cbn. now rewrite !app_nil_r.
  - unfold collate_step in Hl.
    destruct (label_pipeline lb) as [l|] eqn:El; cbn [mbind option_bind] in Hl; [|discriminate].
    destruct (text_pipeline v tx) as [e|] eqn:Ee; cbn [mbind option_bind] in Hl; [|discriminate].
    apply IH in Hl as (labels & encoded & Hls & Hes & -> & -> & ->).
    exists (l :: labels), (e :: encoded). cbn [map fst snd].
    repeat split.
    + apply mapM_Some_2. constructor; [exact El | apply mapM_Some_1, Hls].
    + apply mapM_Some_2. constructor; [exact Ee | apply mapM_Some_1, Hes].
    + now rewrite <- app_assoc.
    + now rewrite <- app_assoc.
    + cbn [token_counts map]. now rewrite <- app_assoc.
Qed.

Lemma collate_batch_inv (v : Torchtext.Vocab) (batch : list Sample) (labels text offsets : list Z) :
  collate_batch v batch = Some (labels, text, offsets) ->
  exists encoded,
    mapM label_pipeline (map fst batch) = Some labels
    /\ mapM (text_pipeline v) (map snd batch) = Some encoded
    /\ encoded <> []
    /\ text = concat encoded
    /\ offsets = cumsum (but_last ([0] ++ token_counts encoded)).
Proof.
  unfold collate_batch. intros Hc.
  destruct (collate_loop v ([], [], [0]) batch) as [[[ls ts] os]|] eqn:El;
    cbn [mbind option_bind] in Hc; [|discriminate].
  apply collate_loop_inv in El as (labels' & encoded & Hls & Hes & -> & -> & ->).
  cbn [app] in Hc. unfold tensor_int64 in Hc.
  destruct (forallb fits_int64 labels'); cbn [mbind option_bind] in Hc; [|discriminate].
  destruct encoded as [|e encoded]; cbn [torch_cat mbind option_bind] in Hc; [discriminate|].
  inversion Hc; subst. exists (e :: encoded). repeat split; try assumption. discriminate.
Qed.

Lemma total_nonneg (l : list Z) : Forall (fun x => 0 <= x) l -> 0 <= total l.
Proof. unfold total. induction 1; cbn; lia. Qed.

Lemma total_take_le (l : list Z) (n : nat) :
  Forall (fun x => 0 <= x) l -> total (take n l) <= total l.
Proof.
  intros Hl. rewrite <- (take_drop n l) at 2. rewrite total_app.
  pose proof (total_nonneg (drop n l) (Forall_drop _ _ _ Hl)). lia.
Qed.

Lemma cumsum_from_nondecreasing (l : list Z) :
  forall acc, Forall (fun x => 0 <= x) l -> nondecreasing (acc :: cumsum_from acc l) = true.
Proof.
  induction l as [|x l IH]; intros acc Hl; [reflexivity|].
  inversion Hl; subst. cbn [cumsum_from nondecreasing].
  apply andb_true_iff. split; [apply Z.leb_le; lia|]. apply IH. assumption.
Qed.

Lemma cumsum_from_last (l : list Z) :
  forall acc d, l <> [] -> List.last (cumsum_from acc l) d = acc + total l.
Proof.
  induction l as [|x l IH]; intros acc d Hne; [congruence|].
  destruct l as [|y l'].
  - cbn. unfold total. cbn. lia.
  - change (cumsum_from acc (x :: y :: l'))
      with ((acc + x) :: cumsum_from (acc + x) (y :: l')).
    change (List.last ((acc + x) :: cumsum_from (acc + x) (y :: l')) d)
      with (List.last (cumsum_from (acc + x) (y :: l')) d).
    rewrite IH by discriminate. unfold total. cbn. lia.
Qed.

Lemma token_counts_nonneg (encoded : list (list Z)) :
  Forall (fun x => 0 <= x) (token_counts encoded).
Proof. unfold token_counts. induction encoded; cbn; constructor; [lia | assumption]. Qed.

Lemma collator_offsets_ok (encoded : list (list Z)) :
  encoded <> [] ->
  offsets_ok (cumsum (but_last ([0] ++ token_counts encoded)))
    (Z.of_nat (length (concat encoded))) = true
  /\ nondecreasing (cumsum (but_last ([0] ++ token_counts encoded))) = true.
Proof.
  intros Hne.
  assert (Hb : but_last ([0] ++ token_counts encoded)
               = 0 :: take (Nat.pred (length encoded)) (token_counts encoded)).
  { unfold but_last. rewrite length_app. unfold token_counts at 1. rewrite length_map.
    cbn [length app]. destruct encoded as [|e r]; [congruence|]. cbn [length Nat.pred].
    replace (1 + S (length r) - 1)%nat with (S (length r)) by lia. reflexivity. }
  rewrite Hb. unfold cumsum. cbn [cumsum_from]. rewrite Z.add_0_l.
  pose proof (token_counts_nonneg encoded) as Hnn.
  set (rest := take (Nat.pred (length encoded)) (token_counts encoded)).
  assert (Hrest : Forall (fun x => 0 <= x) rest) by (apply Forall_take, Hnn).
  split.
  - unfold offsets_ok. apply andb_true_iff. split; [reflexivity|]. apply Z.leb_le.
    rewrite concat_length_total.
    destruct rest as [|x r] eqn:Er.
    + cbn. apply total_nonneg, Hnn.
    + change (List.last (0 :: cumsum_from 0 (x :: r)) 0)
        with (List.last (cumsum_from 0 (x :: r)) 0).
      rewrite cumsum_from_last by discriminate. rewrite Z.add_0_l, <- Er.
      apply total_take_le, Hnn.
  - apply cumsum_from_nondecreasing, Hrest.
Qed.

Lemma forallb_concat {A : Type} (f : A -> bool) (ls : list (list A)) :
  Forall (fun l => forallb f l = true) ls -> forallb f (concat ls) = true.
Proof.
  induction 1 as [|l ls Hl Hls IH]; [reflexivity|].
  cbn [concat]. rewrite forallb_app, Hl, IH. reflexivity.
Qed.

(** A batch of the collator, made with the vocabulary of the script, is a
    batch that a model with one embedding row per vocabulary entry accepts,
    as soon as its labels are class indices of the model. *)
Lemma collate_batch_valid {F : Type} (train_iter : list Sample) (v : Torchtext.Vocab)
    (m : TextClassificationModel F) (batch : list Sample) (labels text offsets : list Z) :
  vocab train_iter = Some v ->
  Z.of_nat (vocab_size m) = Torchtext.len v ->
  (0 < num_class m)%nat ->
  collate_batch v batch = Some (labels, text, offsets) ->
  forallb (target_ok (num_class m)) labels = true ->
  batch_ok m (labels, text, offsets) = true.
Proof.
  intros Hv Hsize Hc Hcol Hlab.
  apply collate_batch_inv in Hcol as (encoded & Hls & Hes & Hne & -> & ->).
  destruct (collator_offsets_ok encoded Hne) as [Hoff Hmono].
  pose proof (mapM_length _ _ _ Hls) as Hll.
  pose proof (mapM_length _ _ _ Hes) as Hle.
  rewrite length_map in Hll, Hle.
  assert (Hidx : forallb (index_ok m) (concat encoded) = true).
  { apply forallb_concat. apply mapM_Some_1 in Hes.
    clear -Hes Hv Hsize. induction Hes as [|tx e txs es He Hrest IH]; constructor.
    - eapply (text_pipeline_index_ok train_iter v m tx e); eassumption.
    - exact IH. }
  assert (Hlen : length (cumsum (but_last ([0] ++ token_counts encoded))) = length labels).
  { unfold cumsum, but_last. rewrite cumsum_from_length, length_take, length_app.
    unfold token_counts. rewrite length_map. cbn [length]. lia. }
  unfold batch_ok. rewrite Hidx, Hoff, Hmono, Hlen, Nat.eqb_refl, Hlab. cbn [andb].
  apply andb_true_iff. split; [|apply Nat.ltb_lt, Hc].
  apply negb_true_iff, Nat.eqb_neq.
  destruct encoded; [congruence|]. cbn [length] in Hle. lia.
Qed.


(** * Further properties of the script *)

(** ** The collator: when it returns, and how batches compose *)

Lemma collator_offsets_length (encoded : list (list Z)) :
  encoded <> [] ->
  length (cumsum (but_last ([0] ++ token_counts encoded))) = length encoded.
Proof.
  intros Hne. unfold cumsum, but_last.
  rewrite cumsum_from_length, length_take, length_app.
  unfold token_counts. rewrite length_map. cbn [length].
  destruct encoded; [congruence | cbn [length]; lia].
Qed.

Lemma collator_offsets_lookup (encoded : list (list Z)) (i : nat) :
  (i < length encoded)%nat ->
  cumsum (but_last ([0] ++ token_counts encoded)) !! i
  = Some (total (take i (token_counts encoded))).
Proof.
  intros Hi. unfold cumsum, but_last.
  assert (Hc : length (token_counts encoded) = length encoded)
    by (unfold token_counts; now rewrite length_map).
  assert (Hlen : Nat.sub (length ([0] ++ token_counts encoded)) 1 = length encoded)
    by (rewrite length_app, Hc; cbn [length]; lia).
  rewrite cumsum_from_lookup.
  - f_equal. rewrite take_take, Hlen, Nat.min_l by lia.
    cbn [app take]. unfold total. cbn [foldr]. lia.
  - rewrite length_take, Hlen, length_app, Hc. cbn [length]. lia.
Qed.

Lemma collate_batch_inv_full (v : Torchtext.Vocab) (batch : list Sample)
    (labels text offsets : list Z) :
  collate_batch v batch = Some (labels, text, offsets) ->
  exists encoded,
    mapM label_pipeline (map fst batch) = Some labels
    /\ forallb fits_int64 labels = true
    /\ mapM (text_pipeline v) (map snd batch) = Some encoded
    /\ encoded <> []
    /\ text = concat encoded
    /\ offsets = cumsum (but_last ([0] ++ token_counts encoded)).
Proof.
  unfold collate_batch. intros Hc.
  destruct (collate_loop v ([], [], [0]) batch) as [[[ls ts] os]|] eqn:El;
    cbn [mbind option_bind] in Hc; [|discriminate].
  apply collate_loop_inv in El as (labels' & encoded & Hls & Hes & -> & -> & ->).
  cbn [app] in Hc. unfold tensor_int64 in Hc.
  destruct (forallb fits_int64 labels') eqn:Hfit; cbn [mbind option_bind] in Hc; [|discriminate].
  destruct encoded as [|e encoded]; cbn [torch_cat mbind option_bind] in Hc; [discriminate|].
  inversion Hc; subst. exists (e :: encoded). repeat split; try assumption. discriminate.
Qed.

Lemma collate_batch_build (v : Torchtext.Vocab) (batch : list Sample)
    (labels : list Z) (encoded : list (list Z)) :
  mapM label_pipeline (map fst batch) = Some labels ->
  forallb fits_int64 labels = true ->
  mapM (text_pipeline v) (map snd batch) = Some encoded ->
  encoded <> [] ->
  collate_batch v batch
  = Some (labels, concat encoded, cumsum (but_last ([0] ++ token_counts encoded))).
Proof.
  intros Hl Hfit He Hne. unfold collate_batch.
  rewrite (collate_loop_spec v batch [] [] [0] labels encoded Hl He).
  cbn [mbind option_bind app]. unfold tensor_int64. rewrite Hfit.
  destruct encoded; [congruence | reflexivity].
Qed.

(** X1.  The collator returns exactly on the batches that are not empty and
    in which every sample has a label that [int] accepts and whose class
    fits an int64, and a text on which the text pipeline returns: the empty
    batch, a label that is no number, a label too large for the label tensor
    and a token the vocabulary cannot map are the only ways to make it
    raise. *)
Theorem collate_batch_returns (v : Torchtext.Vocab) (batch : list Sample) :
  is_Some (collate_batch v batch)
  <-> batch <> []
      /\ Forall (fun s : Sample =>
                   (exists l, label_pipeline s.1 = Some l /\ fits_int64 l = true)
                   /\ is_Some (text_pipeline v s.2)) batch.
Proof.
  split.
  - intros [[[labels text] offsets] Hc].
    apply collate_batch_inv_full in Hc as (encoded & Hl & Hfit & He & Hne & _ & _).
    pose proof (mapM_length _ _ _ He) as Hlen. rewrite length_map in Hlen.
    split; [destruct batch; [destruct encoded; [congruence | discriminate] | discriminate]|].
    apply Forall_forall. intros s Hs.
    apply list_elem_of_lookup in Hs as [i Hi].
    assert (Hs1 : map fst batch !! i = Some s.1)
      by (change (map fst batch) with (fst <$> batch); now rewrite list_lookup_fmap, Hi).
    assert (Hs2 : map snd batch !! i = Some s.2)
      by (change (map snd batch) with (snd <$> batch); now rewrite list_lookup_fmap, Hi).
    destruct (mapM_lookup _ _ _ _ _ Hl Hs1) as (l & Hlp & Hli).
    destruct (mapM_lookup _ _ _ _ _ He Hs2) as (enc & Htp & _).
    split; [|rewrite Htp; eauto].
    exists l. split; [exact Hlp|].
    rewrite forallb_forall in Hfit. apply Hfit.
    apply list_elem_of_In, list_elem_of_lookup. eauto.
  - intros [Hne Hall].
    assert (Hl : exists labels, mapM label_pipeline (map fst batch) = Some labels
                   /\ forallb fits_int64 labels = true).
    { clear Hne. induction Hall as [|s rest [(l & Hlp & Hfit) _] _ IH].
      - exists []. split; reflexivity.
      - destruct IH as (labels & Hls & Hfits). exists (l :: labels). split.
        + cbn [map]. apply mapM_Some_2. constructor; [exact Hlp | apply mapM_Some_1, Hls].
        + cbn [forallb]. now rewrite Hfit, Hfits. }
    assert (He : exists encoded, mapM (text_pipeline v) (map snd batch) = Some encoded).
    { clear Hne Hl. induction Hall as [|s rest [_ [enc Htp]] _ IH].
      - exists []. reflexivity.
      - destruct IH as (encoded & Hes). exists (enc :: encoded).
        cbn [map]. apply mapM_Some_2. constructor; [exact Htp | apply mapM_Some_1, Hes]. }
    destruct Hl as (labels & Hl & Hfit). destruct He as (encoded & He).
    rewrite (collate_batch_build v batch labels encoded Hl Hfit He); [eauto|].
    pose proof (mapM_length _ _ _ He) as Hlen. rewrite length_map in Hlen.
    destruct encoded; [destruct batch; [congruence | discriminate] | discriminate].
Qed.

Lemma mapM_app_Some {A B : Type} (f : A -> option B) (l1 l2 : list A) (k1 k2 : list B) :
  mapM f l1 = Some k1 -> mapM f l2 = Some k2 -> mapM f (l1 ++ l2) = Some (k1 ++ k2).
Proof.
  intros H1 H2. apply mapM_Some_2, Forall2_app; apply mapM_Some_1; assumption.
Qed.

Lemma list_lookup_map {A B : Type} (f : A -> B) (l : list A) (i : nat) :
  map f l !! i = f <$> (l !! i).
Proof. change (map f l) with (f <$> l). apply list_lookup_fmap. Qed.

(** X2.  Batches compose: when the collator returns on two batches, it
    returns on their concatenation, with the labels and the token tensors
    concatenated and the offsets of the second batch moved up by the number
    of tokens of the first. *)
Theorem collate_batch_app (v : Torchtext.Vocab) (batch1 batch2 : list Sample)
    (labels1 text1 offsets1 labels2 text2 offsets2 : list Z) :
  collate_batch v batch1 = Some (labels1, text1, offsets1) ->
  collate_batch v batch2 = Some (labels2, text2, offsets2) ->
  collate_batch v (batch1 ++ batch2)
  = Some (labels1 ++ labels2, text1 ++ text2,
          offsets1 ++ map (fun o => o + Z.of_nat (length text1)) offsets2).
Proof.
  intros H1 H2.
  apply collate_batch_inv_full in H1 as (e1 & Hl1 & Hf1 & He1 & Hn1 & -> & ->).
  apply collate_batch_inv_full in H2 as (e2 & Hl2 & Hf2 & He2 & Hn2 & -> & ->).
  rewrite (collate_batch_build v (batch1 ++ batch2) (labels1 ++ labels2) (e1 ++ e2)).
  - f_equal. f_equal; [f_equal; apply concat_app|].
    pose proof (collator_offsets_length e1 Hn1) as Hlen1.
    pose proof (collator_offsets_length e2 Hn2) as Hlen2.
    assert (Hn : e1 ++ e2 <> []) by (destruct e1; [congruence | discriminate]).
    pose proof (collator_offsets_length (e1 ++ e2) Hn) as Hlen.
    rewrite length_app in Hlen.
    apply list_eq. intros i.
    destruct (decide (i < length e1 + length e2)%nat) as [Hi|Hi].
    + rewrite collator_offsets_lookup by (rewrite length_app; lia).
      destruct (decide (i < length e1)%nat) as [Hi1|Hi1].
      * rewrite lookup_app_l by lia. rewrite collator_offsets_lookup by lia.
        f_equal. f_equal. unfold token_counts. rewrite map_app.
        rewrite take_app_le by (rewrite length_map; lia). reflexivity.
      * rewrite lookup_app_r by lia. rewrite Hlen1.
        rewrite list_lookup_map, collator_offsets_lookup by lia.
        cbn [fmap option_fmap option_map]. f_equal.
        rewrite concat_length_total.
        unfold token_counts at 1. rewrite map_app.
        replace i with (length (map (fun e => Z.of_nat (length e)) e1) + (i - length e1))%nat
          at 1 by (rewrite length_map; lia).
        rewrite take_app_add, total_app. unfold token_counts. lia.
    + rewrite !lookup_ge_None_2; [reflexivity | |].
      * rewrite length_app, length_map. lia.
      * lia.
  - change (map fst (batch1 ++ batch2)) with (fst <$> (batch1 ++ batch2)).
    rewrite fmap_app. apply mapM_app_Some; assumption.
  - rewrite forallb_app, Hf1, Hf2. reflexivity.
  - change (map snd (batch1 ++ batch2)) with (snd <$> (batch1 ++ batch2)).
    rewrite fmap_app. apply mapM_app_Some; assumption.
  - destruct e1; [congruence | discriminate].
Qed.

Lemma collate_batch_app_witness :
  collate_batch demo_vocab
    ([(Py.Int 3, "the oil"%string); (Py.Int 1, ""%string)]
     ++ [(Py.Str " 4 ", "bears and bulls"%string)])
  = Some ([2; 0] ++ [3], [1; 6] ++ [4; 2; 0],
          [0; 2] ++ map (fun o => o + Z.of_nat (length [1; 6])) [0]).
Proof.
  apply (collate_batch_app demo_vocab
           [(Py.Int 3, "the oil"%string); (Py.Int 1, ""%string)]
           [(Py.Str " 4 ", "bears and bulls"%string)]
           [2; 0] [1; 6] [0; 2] [3] [4; 2; 0] [0]); vm_compute; reflexivity.
Defined.

(** ** From the collator to the model *)

Section CollatorToModel.
Context {F : Type} `{Scalar F}.

(** X3.  With the vocabulary of the script and a model that has one
    embedding row per entry of the vocabulary, the forward pass accepts every
    batch the collator returns: it gives one row of logits per sample of the
    batch, each with one logit per class.  If moreover the labels of the
    batch are class indices of the model and the model has a class, the
    batch is one that also the loss accepts. *)
Theorem collate_batch_forward (train_iter : list Sample) (v : Torchtext.Vocab)
    (m : TextClassificationModel F) (batch : list Sample) (labels text offsets : list Z) :
  vocab train_iter = Some v ->
  Z.of_nat (vocab_size m) = Torchtext.len v ->
  collate_batch v batch = Some (labels, text, offsets) ->
  (exists logits : list (list F),
     forward m text offsets = Some logits
     /\ length logits = length batch
     /\ Forall (fun row => length row = num_class m) logits)
  /\ ((0 < num_class m)%nat ->
      forallb (target_ok (num_class m)) labels = true ->
      batch_ok m (labels, text, offsets) = true).
Proof.
  intros Hv Hsize Hcol. split.
  - apply collate_batch_inv in Hcol as (encoded & Hls & Hes & Hne & -> & ->).
    destruct (collator_offsets_ok encoded Hne) as [Hoff _].
    pose proof (mapM_length _ _ _ Hes) as Hle. rewrite length_map in Hle.
    assert (Hidx : forallb (index_ok m) (concat encoded) = true).
    { apply forallb_concat. apply mapM_Some_1 in Hes.
      clear -Hes Hv Hsize. induction Hes as [|tx e txs es He Hrest IH]; constructor.
      - eapply (text_pipeline_index_ok train_iter v m tx e); eassumption.
      - exact IH. }
    destruct (forward_Some m (concat encoded) _ Hidx Hoff) as (logits & Hf & Hl & Hrows).
    exists logits. repeat split; try assumption.
    rewrite Hl, collator_offsets_length by assumption. exact Hle.
  - intros Hc Hlab. eapply collate_batch_valid; eassumption.
Qed.

End CollatorToModel.

Lemma collate_batch_forward_witness :
  exists logits : list (list Q),
    forward (new_model 6 3 4 demo_draws) [1; 4; 1; 3] [0; 2] = Some logits
    /\ length logits = 2%nat.
Proof.
  destruct (collate_batch_forward tiny_corpus
              (default demo_vocab (vocab tiny_corpus)) (new_model 6 3 4 demo_draws)
              [(Py.Int 3, "the oil"%string); (Py.Int 1, "the bears"%string)]
              [2; 0] [1; 4; 1; 3] [0; 2]) as [(logits & Hf & Hl & _) _].
  - vm_compute. reflexivity.
  - vm_compute. reflexivity.
  - vm_compute. reflexivity.
  - exists logits. split; [exact Hf | exact Hl].
Defined.

(** ** Evaluation: the counts, the order of the batches, the range *)

Section Counts.
Context {F : Type} `{Scalar F}.

Lemma evaluate_batch_counts (m : TextClassificationModel F) (a c idx : Z) (b : Batch) :
  evaluate_batch m (a, c) (idx, b)
  = match batch_counts m b with
    | Some (x, y) => Some (a + x, c + y)
    | None => None
    end.
Proof.
  destruct b as [[label text] offsets]. unfold batch_counts, evaluate_batch.
  destruct (forward m text offsets) as [logits|]; cbn [mbind option_bind]; [|reflexivity].
  destruct (criterion m logits label); cbn [mbind option_bind]; [|reflexivity].
  destruct (argmax1 logits); cbn [mbind option_bind]; reflexivity.
Qed.

Lemma evaluate_loop_counts (m : TextClassificationModel F) (dataloader : list Batch) :
  forall (a c : Z) (g : nat -> Z),
    for_each (evaluate_batch m) (a, c) (imap (fun i x => (g i, x)) dataloader)
    = match loader_counts m dataloader with
      | Some (x, y) => Some (a + x, c + y)
      | None => None
      end.
Proof.
  induction dataloader as [|b rest IH]; intros a c g.
  - cbn. f_equal. f_equal; lia.
  - cbn [imap for_each loader_counts]. rewrite evaluate_batch_counts.
    destruct (batch_counts m b) as [[x y]|]; cbn [mbind option_bind]; [|reflexivity].
    rewrite (IH _ _ (fun i => g (S i))).
    destruct (loader_counts m rest) as [[x' y']|]; [|reflexivity].
    f_equal. f_equal; lia.
Qed.

Lemma evaluate_counts (m : TextClassificationModel F) (dataloader : list Batch) :
  evaluate m dataloader
  = match loader_counts (set_training false m) dataloader with
    | Some (x, y) =>
        if y =? 0 then None
        else Some (fdiv (f_of_Z x) (f_of_Z y), set_training false m)
    | None => None
    end.
Proof.
  unfold evaluate, enumerate. rewrite evaluate_loop_counts.
  destruct (loader_counts _ dataloader) as [[x y]|]; reflexivity.
Qed.

Lemma loader_counts_perm (m : TextClassificationModel F) (l l' : list Batch) :
  l ≡ₚ l' -> loader_counts m l = loader_counts m l'.
Proof.
  induction 1 as [|b l l' _ IH|b1 b2 l|l1 l2 l3 _ IH1 _ IH2].
  - reflexivity.
  - cbn [loader_counts]. now rewrite IH.
  - cbn [loader_counts].
    destruct (batch_counts m b1) as [[x1 y1]|], (batch_counts m b2) as [[x2 y2]|],
      (loader_counts m l) as [[x y]|]; try reflexivity.
    f_equal. f_equal; lia.
  - now rewrite IH1.
Qed.

Lemma count_correct_le (pred label : list Z) :
  0 <= count_correct pred label <= Z.of_nat (length label).
Proof.
  unfold count_correct. split; [lia|].
  apply inj_le. etransitivity; [apply length_filter|].
  rewrite length_zip_with. lia.
Qed.

Lemma batch_counts_le (m : TextClassificationModel F) (b : Batch) (x y : Z) :
  batch_counts m b = Some (x, y) -> 0 <= x <= y.
Proof.
  destruct b as [[label text] offsets]. unfold batch_counts, evaluate_batch.
  destruct (forward m text offsets) as [logits|]; cbn [mbind option_bind]; [|discriminate].
  destruct (criterion m logits label); cbn [mbind option_bind]; [|discriminate].
  destruct (argmax1 logits) as [pred|]; cbn [mbind option_bind]; [|discriminate].
  intros Hb. inversion Hb; subst.
  pose proof (count_correct_le pred label). lia.
Qed.

Lemma loader_counts_le (m : TextClassificationModel F) (l : list Batch) :
  forall x y, loader_counts m l = Some (x, y) -> 0 <= x <= y.
Proof.
  induction l as [|b r IH]; intros x y Hl; cbn [loader_counts] in Hl.
  - inversion Hl. lia.
  - destruct (batch_counts m b) as [[x1 y1]|] eqn:Eb; [|discriminate].
    destruct (loader_counts m r) as [[x2 y2]|]; [|discriminate].
    inversion Hl; subst. apply batch_counts_le in Eb. specialize (IH _ _ eq_refl). lia.
Qed.

(** X4.  The order of the batches does not matter to [evaluate]: on two
    loaders that yield the same batches in different orders it returns the
    same accuracy, or raises on both.  (The loaders of the script shuffle.) *)
Theorem evaluate_shuffled (m : TextClassificationModel F) (dataloader dataloader' : list Batch) :
  dataloader ≡ₚ dataloader' ->
  evaluate m dataloader = evaluate m dataloader'.
Proof.
  intros Hp. rewrite !evaluate_counts.
  now rewrite (loader_counts_perm _ _ _ Hp).
Qed.

End Counts.

Lemma evaluate_shuffled_witness :
  evaluate demo_model [([2; 3; 3], [1; 6; 4; 2; 0], [0; 2; 2]); ([0], [1], [0])]
  = evaluate demo_model [([0], [1], [0]); ([2; 3; 3], [1; 6; 4; 2; 0], [0; 2; 2])].
Proof.
  apply evaluate_shuffled. apply perm_swap.
Defined.

Lemma ratio_in_unit (x y : Z) :
  0 <= x <= y -> y <> 0 -> (0 <= inject_Z x / inject_Z y)%Q /\ (inject_Z x / inject_Z y <= 1)%Q.
Proof.
  intros Hxy Hy.
  assert (Hpos : (0 < inject_Z y)%Q) by (change 0%Q with (inject_Z 0); rewrite <- Zlt_Qlt; lia).
  split.
  - apply Qle_shift_div_l; [exact Hpos|]. rewrite Qmult_0_l.
    change 0%Q with (inject_Z 0). rewrite <- Zle_Qle. lia.
  - apply Qle_shift_div_r; [exact Hpos|]. rewrite Qmult_1_l. rewrite <- Zle_Qle. lia.
Qed.

(** X5.  An accuracy that [evaluate] returns is a number between 0 and 1:
    the correct predictions are never more than the samples counted. *)
Theorem evaluate_accuracy_in_unit (m m' : TextClassificationModel Q) (dataloader : list Batch)
    (accuracy : Q) :
  evaluate m dataloader = Some (accuracy, m') ->
  (0 <= accuracy)%Q /\ (accuracy <= 1)%Q.
Proof.
  rewrite evaluate_counts.
  destruct (loader_counts _ dataloader) as [[x y]|] eqn:El; [|discriminate].
  destruct (y =? 0) eqn:Ey; [discriminate|].
  intros He. inversion He; subst. apply Z.eqb_neq in Ey.
  apply loader_counts_le in El. apply ratio_in_unit; assumption.
Qed.

Lemma evaluate_accuracy_in_unit_witness :
  (0 <= 2 # 3)%Q /\ (2 # 3 <= 1)%Q.
Proof.
  apply (evaluate_accuracy_in_unit demo_model (set_training false demo_model)
           demo_eval_dataloader (2 # 3)%Q).
  vm_compute. reflexivity.
Defined.

(** ** Training: what a pass prints and what it leaves *)

Lemma log_indices (n : nat) :
  filter is_log_index (seqZ 0 (Z.of_nat n))
  = map (fun k => log_interval * k) (seqZ 1 ((Z.of_nat n - 1) / log_interval)).
Proof.
  unfold log_interval. induction n as [|n IH].
  - reflexivity.
  - rewrite seqZ_S, filter_app, IH, Z.add_0_l.
    replace (Z.of_nat (S n) - 1) with (Z.of_nat n) by lia.
    destruct (decide (is_log_index (Z.of_nat n))) as [[Hm Hp]|Hno].
    + rewrite filter_cons_True by (split; assumption). rewrite filter_nil.
      unfold log_interval in Hm.
      assert (Hq : Z.of_nat n / 500 = (Z.of_nat n - 1) / 500 + 1).
      { apply Z.div_exact in Hm; [|lia].
        assert (Hdm := Z.div_mod (Z.of_nat n - 1) 500 ltac:(lia)).
        assert (Hb := Z.mod_pos_bound (Z.of_nat n - 1) 500 ltac:(lia)).
        nia. }
      assert (Hnn : 0 <= (Z.of_nat n - 1) / 500) by (apply Z.div_pos; lia).
      rewrite Hq.
      replace ((Z.of_nat n - 1) / 500 + 1) with (Z.of_nat (S (Z.to_nat ((Z.of_nat n - 1) / 500))))
        by lia.
      rewrite seqZ_S, map_app. rewrite Z2Nat.id by lia. f_equal. cbn [map]. f_equal.
      apply Z.div_exact in Hm; lia.
    + rewrite filter_cons_False by exact Hno. rewrite filter_nil, app_nil_r.
      destruct n as [|n']; [reflexivity|].
      f_equal. f_equal. unfold is_log_index, log_interval in Hno.
      assert (Hm : Z.of_nat (S n') mod 500 <> 0) by (intros Hm; apply Hno; split; [exact Hm | lia]).
      assert (Hdm := Z.div_mod (Z.of_nat (S n')) 500 ltac:(lia)).
      assert (Hb := Z.mod_pos_bound (Z.of_nat (S n')) 500 ltac:(lia)).
      symmetry. apply (Z.div_unique _ _ _ (Z.of_nat (S n') mod 500 - 1)); lia.
Qed.

Section TrainPass.
Context {F : Type} `{Scalar F} `{Autograd F}.

Lemma train_batch_keys (epoch batches : Z) (lr0 : F) (st st' : TrainState) (idx : Z) (b : Batch) :
  train_batch epoch batches lr0 st (idx, b) = Some st' ->
  map progress_key (t_out st')
  = map progress_key (t_out st)
    ++ map (fun i => Some (epoch, i, batches)) (filter is_log_index [idx])
  /\ training (t_model st') = training (t_model st).
Proof.
  destruct b as [[label text] offsets]. intros Hb.
  pose proof (train_batch_shape _ _ _ _ _ _ Hb) as [_ Ht].
  apply train_batch_inv in Hb as (_ & _ & _ & _ & _ & _ & _ & _ & _ & Hout).
  split; [|exact Ht].
  destruct ((idx mod log_interval =? 0) && (0 <? idx)) eqn:Ec.
  - destruct Hout as [a ->].
    apply andb_true_iff in Ec as [E1 E2]. apply Z.eqb_eq in E1. apply Z.ltb_lt in E2.
    rewrite filter_cons_True by (split; assumption). rewrite filter_nil.
    rewrite map_app. reflexivity.
  - rewrite Hout, filter_cons_False, filter_nil.
    + cbn [map]. now rewrite app_nil_r.
    + intros [E1 E2]. apply Z.eqb_eq in E1. apply Z.ltb_lt in E2.
      rewrite E1, E2 in Ec. discriminate.
Qed.

Lemma train_loop_keys (epoch batches : Z) (lr0 : F) (dataloader : list Batch) :
  forall (st st' : TrainState) (s : Z),
    for_each (train_batch epoch batches lr0) st
      (imap (fun i x => (s + Z.of_nat i, x)) dataloader) = Some st' ->
    map progress_key (t_out st')
    = map progress_key (t_out st)
      ++ map (fun i => Some (epoch, i, batches))
           (filter is_log_index (seqZ s (Z.of_nat (length dataloader))))
    /\ training (t_model st') = training (t_model st).
Proof.
  induction dataloader as [|b rest IH]; intros st st' s Hl.
  - cbn in Hl. inversion Hl; subst. cbn. now rewrite app_nil_r.
  - cbn [imap for_each] in Hl.
    destruct (train_batch epoch batches lr0 st (s + Z.of_nat 0, b)) as [st1|] eqn:E1;
      cbn [mbind option_bind] in Hl; [|discriminate].
    apply train_batch_keys in E1 as [Hk1 Ht1].
    assert (Hl' : for_each (train_batch epoch batches lr0) st1
                    (imap (fun i x => (s + 1 + Z.of_nat i, x)) rest) = Some st').
    { erewrite imap_ext; [exact Hl|]. intros i x _. cbn. f_equal. lia. }
    apply IH in Hl' as [Hk Ht].
    split; [|congruence].
    rewrite Hk, Hk1. cbn [length].
    rewrite (seqZ_cons s) by lia.
    replace (Z.pred (Z.of_nat (S (length rest)))) with (Z.of_nat (length rest)) by lia.
    replace (Z.succ s) with (s + 1) by lia.
    replace (s + Z.of_nat 0) with s by lia.
    change (s :: seqZ (s + 1) (Z.of_nat (length rest)))
      with ([s] ++ seqZ (s + 1) (Z.of_nat (length rest))).
    rewrite filter_app, map_app, app_assoc. reflexivity.
Qed.

(** X6.  What a training pass prints: whenever [train] returns on a loader
    of [n] batches, it has printed progress lines only, one for each batch
    number that is a positive multiple of 500 and below [n], in order, each
    showing the epoch and the number of batches; there are
    [(n - 1) / 500] of them, and none for a loader of at most 500 batches.  It
    has made one optimizer step per batch and leaves the model in training
    mode. *)
Theorem train_progress_lines (epoch : Z) (lr0 : F) (m m' : TextClassificationModel F)
    (dataloader : list Batch) (lines : list (Line F)) (steps : nat) :
  train epoch lr0 m dataloader = Some (m', lines, steps) ->
  map progress_key lines
  = map (fun k => Some (epoch, log_interval * k, Z.of_nat (length dataloader)))
      (seqZ 1 ((Z.of_nat (length dataloader) - 1) / log_interval))
  /\ steps = length dataloader
  /\ training m' = true.
Proof.
  intros Ht. pose proof (train_steps _ _ _ _ _ _ _ Ht) as Hsteps.
  unfold train, enumerate in Ht.
  destruct (for_each _ _ _) as [st|] eqn:E; cbn [mbind option_bind] in Ht; [|discriminate].
  inversion Ht; subst m' lines steps.
  rewrite (imap_ext _ (fun i x => (0 + Z.of_nat i, x))) in E by (intros; reflexivity).
  apply train_loop_keys in E as [Hk Htr]. cbn [t_out t_model map app] in Hk, Htr.
  repeat split; try assumption.
  rewrite Hk, log_indices. rewrite <- !list_fmap_compose. reflexivity.
Qed.

(** X7.  Whether a training pass on acceptable batches returns is decided by
    the clipping of the library alone.  With a clipping that accepts the
    gradients (version 1.13 of the library), a pass on batches the model and
    the loss accept never raises (in particular the accuracy of a progress
    line is never a division by zero), makes one optimizer step per batch,
    and returns a model of the same shape, for which the same batches are
    acceptable.  With a clipping that refuses the gradients (versions 2.0 and
    2.3, for the sparse gradient of the embedding), a pass over a loader that
    yields a batch raises, whatever the batches are. *)
Theorem train_returns (epoch : Z) (lr0 : F) (m : TextClassificationModel F)
    (dataloader : list Batch) :
  (clip_accepts ->
   forallb (batch_ok m) dataloader = true ->
   exists (m' : TextClassificationModel F) (lines : list (Line F)),
     train epoch lr0 m dataloader = Some (m', lines, length dataloader)
     /\ same_shape m m'
     /\ forall b : Batch, batch_ok m' b = batch_ok m b)
  /\ (clip_refuses -> dataloader <> [] -> train epoch lr0 m dataloader = None).
Proof.
  split.
  - intros Hclip Hall.
    destruct (train_Some epoch lr0 m dataloader Hclip Hall) as (m' & lines & Ht & Hs).
    exists m', lines. repeat split; try assumption; try apply Hs.
    intros b. apply batch_ok_shape, Hs.
  - apply train_clip_refuses.
Qed.

End TrainPass.

Lemma train_progress_lines_witness :
  exists (m' : TextClassificationModel Q) (lines : list (Line Q)),
    train 1 5%Q demo_model long_dataloader = Some (m', lines, 1001%nat)
    /\ map progress_key lines = [Some (1, 500, 1001); Some (1, 1000, 1001)].
Proof.
  destruct (train_Some 1 5%Q demo_model long_dataloader demo_clip_accepts)
    as (m' & lines & Ht & _).
  - vm_compute. reflexivity.
  - exists m', lines. split; [exact Ht|].
    apply (train_progress_lines 1 5%Q demo_model m' long_dataloader lines 1001 Ht).
Defined.

Lemma train_returns_witness :
  (exists (m' : TextClassificationModel Q) (lines : list (Line Q)),
     train 1 5%Q demo_model (demo_dataloader 1) = Some (m', lines, 2%nat)
     /\ same_shape demo_model m')
  /\ @train Q Q_Scalar strict_autograd 1 5%Q demo_model (demo_dataloader 1) = None.
Proof.
  split.
  - destruct (proj1 (train_returns 1 5%Q demo_model (demo_dataloader 1)) demo_clip_accepts)
      as (m' & lines & Ht & Hs & _).
    + reflexivity.
    + exists m', lines. split; [exact Ht | exact Hs].
  - apply (proj2 (@train_returns Q Q_Scalar strict_autograd 1 5%Q demo_model
                    (demo_dataloader 1))).
    + intros g max_norm. reflexivity.
    + discriminate.
Defined.

(** ** The epoch loop: the recorded accuracy and the learning rate *)

Lemma for_each_invariant {S A : Type} (body : S -> A -> option S) (P : S -> Prop) :
  (forall s x s', P s -> body s x = Some s' -> P s') ->
  forall (l : list A) (s s' : S), P s -> for_each body s l = Some s' -> P s'.
Proof.
  intros Hstep. induction l as [|x l IH]; intros s s' Hs Hl; cbn [for_each] in Hl.
  - inversion Hl; subst. exact Hs.
  - destruct (body s x) as [s1|] eqn:E1; cbn [mbind option_bind] in Hl; [|discriminate].
    eapply IH; [|exact Hl]. eapply Hstep; eassumption.
Qed.

Section LoopState.
Context {F : Type} `{Scalar F} `{Autograd F}.

Lemma epoch_body_state (train_dataloader valid_dataloader : Z -> list Batch)
    (st st' : Script) (epoch : Z) :
  epoch_body train_dataloader valid_dataloader st epoch = Some st' ->
  exists accu_val : F,
    (scheduler st', lr st', total_accu st')
    = end_of_epoch (scheduler st) (lr st) (total_accu st) accu_val
    /\ validation_accuracies (stdout st') = validation_accuracies (stdout st) ++ [accu_val].
Proof.
  intros Hb. unfold epoch_body in Hb.
  destruct (train epoch (lr st) (model st) (train_dataloader epoch))
    as [[[m lines] steps]|] eqn:Et; cbn [mbind option_bind] in Hb; [|discriminate].
  destruct (evaluate m (valid_dataloader epoch)) as [[accu_val m']|] eqn:Ee;
    cbn [mbind option_bind] in Hb; [|discriminate].
  exists accu_val.
  destruct (end_of_epoch _ _ _ _) as [[s lr'] best].
  inversion Hb; subst st'. cbn [scheduler lr total_accu stdout].
  split; [reflexivity|].
  rewrite !validation_accuracies_app, (train_out _ _ _ _ _ _ _ Et). reflexivity.
Qed.

(** One validation accuracy is printed in each epoch. *)
Lemma epochs_accuracies (train_dataloader valid_dataloader : Z -> list Batch)
    (epochs : list Z) :
  forall st st' : Script,
    for_each (epoch_body train_dataloader valid_dataloader) st epochs = Some st' ->
    length (validation_accuracies (stdout st'))
    = (length (validation_accuracies (stdout st)) + length epochs)%nat.
Proof.
  induction epochs as [|e epochs IH]; intros st st' Hl; cbn [for_each] in Hl.
  - apply (inj Some) in Hl. subst st'. cbn [length]. lia.
  - destruct (epoch_body train_dataloader valid_dataloader st e) as [st1|] eqn:E1;
      cbn [mbind option_bind] in Hl; [|discriminate].
    rewrite (IH st1 st' Hl).
    apply epoch_body_state in E1 as (a & _ & ->). rewrite length_app. cbn [length]. lia.
Qed.

Lemma scheduler_step_counts (s : StepLR) (lr0 : F) :
  scheduler_inv s ->
  scheduler_inv (scheduler_step s lr0).1
  /\ last_epoch (scheduler_step s lr0).1 = last_epoch s + 1
  /\ (scheduler_step s lr0).2 = fmul lr0 (fdiv (f_of_Z 1) (f_of_Z 10)).
Proof.
  intros (Hs & Hg & Hl). unfold scheduler_step.
  rewrite Hs, Z.mod_1_r.
  replace (last_epoch s + 1 =? 0) with false by (symmetry; apply Z.eqb_neq; lia).
  cbn [orb negb Z.eqb fst snd]. rewrite Hg.
  unfold scheduler_inv. cbn [step_size gamma last_epoch].
  repeat split; try assumption; lia.
Qed.

(** X9.  The learning rate after the epoch loop: when the loop returns, the
    scheduler has stepped [k] times for some [k] from 0 to 9 (never in the
    first epoch), and the learning rate is the initial rate 5 multiplied [k]
    times by 0.1; nothing else ever changes it. *)
Theorem learning_rate_after_loop (train_dataloader valid_dataloader : Z -> list Batch)
    (m : TextClassificationModel F) (st : Script) :
  epoch_loop train_dataloader valid_dataloader (script_init m) = Some st ->
  exists k : nat,
    (k <= 9)%nat
    /\ last_epoch (scheduler st) = Z.of_nat k
    /\ lr st = Nat.iter k (fun x => fmul x (fdiv (f_of_Z 1) (f_of_Z 10))) LR.
Proof.
  intros Hl. pose proof Hl as Hp.
  unfold epoch_loop in Hl, Hp. rewrite epochs_of_script in Hl, Hp.
  apply epochs_accuracies in Hp. cbn [stdout script_init validation_accuracies flat_map] in Hp.
  set (P := fun s : Script =>
         scheduler_inv (scheduler s)
         /\ lr s = Nat.iter (Z.to_nat (last_epoch (scheduler s)))
                     (fun x => fmul x (fdiv (f_of_Z 1) (f_of_Z 10))) LR
         /\ match total_accu s with
            | None => last_epoch (scheduler s) = 0
            | Some _ => last_epoch (scheduler s) + 1
                        <= Z.of_nat (length (validation_accuracies (stdout s)))
            end).
  assert (HP : P st).
  { eapply (for_each_invariant _ P); [|exact (conj (scheduler_inv_init m) (conj eq_refl eq_refl))
                                      |exact Hl].
    intros s e s' (Hinv & Hlr & Hcnt) Hb.
    apply epoch_body_state in Hb as (a & Hend & Hacc).
    unfold end_of_epoch in Hend. unfold P. rewrite Hacc, length_app. cbn [length].
    destruct (total_accu s) as [best|].
    - destruct (fltb a best).
      + destruct (scheduler_step_counts (scheduler s) (lr s) Hinv) as (Hinv' & Hle & Hlr').
        destruct (scheduler_step (scheduler s) (lr s)) as [s1 lr1]. cbn [fst snd] in *.
        injection Hend as Es El Et. rewrite Es, El, Et, Hle, Hlr'.
        destruct Hinv as (_ & _ & Hnn).
        split; [exact Hinv'|]. split; [|lia].
        replace (Z.to_nat (last_epoch (scheduler s) + 1))
          with (S (Z.to_nat (last_epoch (scheduler s)))) by lia.
        rewrite Nat.iter_succ. now rewrite <- Hlr.
      + injection Hend as Es El Et. rewrite Es, El, Et.
        split; [exact Hinv|]. split; [exact Hlr | lia].
    - injection Hend as Es El Et. rewrite Es, El, Et.
      split; [exact Hinv|]. split; [exact Hlr | lia]. }
  destruct HP as ((_ & _ & Hnn) & Hlr & Hcnt).
  exists (Z.to_nat (last_epoch (scheduler st))).
  cbn [length Nat.add] in Hp. rewrite Hp in Hcnt.
  repeat split; try assumption; try lia.
  destruct (total_accu st); lia.
Qed.

End LoopState.

Lemma demo_loop_returns :
  exists st : Script (F := Q),
    epoch_loop demo_dataloader demo_dataloader (script_init demo_model) = Some st.
Proof.
  unfold epoch_loop. rewrite epochs_of_script. apply epochs_Some; [exact demo_clip_accepts|].
  intros e _. split; [reflexivity | split; [reflexivity | discriminate]].
Defined.

Lemma learning_rate_after_loop_witness :
  exists (st : Script (F := Q)) (k : nat),
    epoch_loop demo_dataloader demo_dataloader (script_init demo_model) = Some st
    /\ (k <= 9)%nat
    /\ lr st = Nat.iter k (fun x : Q => fmul x (fdiv (f_of_Z 1) (f_of_Z 10))) LR.
Proof.
  destruct demo_loop_returns as (st & Hst).
  destruct (learning_rate_after_loop demo_dataloader demo_dataloader demo_model st Hst)
    as (k & Hk & _ & Hlr).
  exists st, k. split; [exact Hst|]. split; [exact Hk | exact Hlr].
Defined.

Section Best.
Context `{Autograd Q}.

(** X8.  The accuracy the epoch loop records is the best one: when the loop
    returns, ten validation accuracies have been printed, one per epoch, and
    the recorded accuracy is one of them and is no smaller than any of
    them. *)
Theorem recorded_accuracy_is_best (train_dataloader valid_dataloader : Z -> list Batch)
    (m : TextClassificationModel Q) (st : Script (F := Q)) :
  epoch_loop train_dataloader valid_dataloader (script_init m) = Some st ->
  length (validation_accuracies (stdout st)) = 10%nat
  /\ exists best : Q,
       total_accu st = Some best
       /\ In best (validation_accuracies (stdout st))
       /\ Forall (fun a => (a <= best)%Q) (validation_accuracies (stdout st)).
Proof.
  intros Hl. pose proof Hl as Hp.
  unfold epoch_loop in Hl, Hp. rewrite epochs_of_script in Hl, Hp.
  apply epochs_accuracies in Hp. cbn [stdout script_init validation_accuracies flat_map] in Hp.
  cbn [length Nat.add] in Hp.
  set (P := fun s : Script (F := Q) =>
         is_best (validation_accuracies (stdout s)) (total_accu s)).
  assert (Hbest : P st).
  { assert (H0 : P (script_init m)) by reflexivity.
    eapply (for_each_invariant _ P); [|exact H0 | exact Hl].
    intros s e s' Hbest Hb. eapply epoch_body_best; eassumption. }
  split; [exact Hp|].
  unfold P, is_best in Hbest. destruct (total_accu st) as [best|].
  - exists best. destruct Hbest. repeat split; assumption.
  - rewrite Hbest in Hp. cbn [length] in Hp. lia.
Qed.

End Best.

Lemma recorded_accuracy_is_best_witness :
  exists (st : Script (F := Q)) (best : Q),
    epoch_loop demo_dataloader demo_dataloader (script_init demo_model) = Some st
    /\ total_accu st = Some best
    /\ length (validation_accuracies (stdout st)) = 10%nat.
Proof.
  destruct demo_loop_returns as (st & Hst).
  destruct (recorded_accuracy_is_best demo_dataloader demo_dataloader demo_model st Hst)
    as (Hlen & best & Hb & _).
  exists st, best. split; [exact Hst|]. split; [exact Hb | exact Hlen].
Defined.

(** ** The vocabulary, the number of classes, and prediction *)

(** X10.  With the vocabulary of the script the text pipeline never raises:
    for every training corpus the vocabulary is built and has at least one
    entry, and every text is encoded, token by token, into indices that are
    all below the length of the vocabulary, so that an embedding table with
    [len(vocab)] rows is never indexed out of range. *)
Theorem text_pipeline_in_range (train_iter : list Sample) :
  exists v : Torchtext.Vocab,
    vocab train_iter = Some v
    /\ 1 <= Torchtext.len v
    /\ forall text : string,
         exists tokens : list Z,
           text_pipeline v text = Some tokens
           /\ length tokens = length (tokenizer text)
           /\ Forall (fun t => 0 <= t < Torchtext.len v) tokens.
Proof.
  destruct (vocab_unk train_iter) as (v & Hv & _ & Hd & toks & Hitos & _).
  exists v. split; [exact Hv|]. split.
  - unfold Torchtext.len. rewrite Hitos. cbn [length]. lia.
  - intros text. eexists. split; [apply lookup_indices_default, Hd|].
    split; [apply length_map|].
    apply Forall_forall. intros t Ht.
    apply list_elem_of_In, in_map_iff in Ht as (tok & <- & _).
    apply (vocab_index_range train_iter v tok Hv).
Qed.

Section PredictReturns.
Context {F : Type} `{Scalar F}.

(** X11.  With the vocabulary of the script and a model that has one
    embedding row per entry of the vocabulary and at least one class,
    [predict] returns exactly on the texts that have a token; on a text
    without tokens (an empty text, for instance, or one of blanks only)
    it raises. *)
Theorem predict_returns (train_iter : list Sample) (v : Torchtext.Vocab)
    (m : TextClassificationModel F) (text : string) :
  vocab train_iter = Some v ->
  Z.of_nat (vocab_size m) = Torchtext.len v ->
  (0 < num_class m)%nat ->
  is_Some (predict m v text) <-> tokenizer text <> [].
Proof.
  intros Hv Hsize Hc.
  destruct (vocab_unk train_iter) as (v' & Hv' & _ & Hd & _).
  rewrite Hv in Hv'. apply (inj Some) in Hv'. subst v'.
  pose proof (lookup_indices_default v 0 (tokenizer text) Hd) as Ht.
  fold (text_pipeline v text) in Ht.
  split.
  - intros [p Hp] Hnil. unfold predict in Hp. rewrite Ht, Hnil in Hp. discriminate.
  - intros Hne.
    pose proof (text_pipeline_index_ok train_iter v m text _ Hv Hsize Ht) as Hi.
    destruct (forward_single_bag m _ Hi) as (row & Hf & Hrow).
    destruct (argmax_Some row) as (i & Ha).
    { destruct row; [cbn [length] in Hrow; lia | discriminate]. }
    exists (i + 1). unfold predict. rewrite Ht. cbn [mbind option_bind].
    destruct (tokenizer text) as [|t r] eqn:Etok; [congruence|].
    cbn [map] in Hf |- *. rewrite Hf. cbn [mbind option_bind]. rewrite Ha. reflexivity.
Qed.

(** X12.  The last line of the script: when [predict] returns the label [p],
    the lookup of its category succeeds exactly when [p] is one of 1, 2, 3, 4;
    for any other label the dictionary has no key and the line raises. *)
Theorem final_print_key (m : TextClassificationModel F) (v : Torchtext.Vocab)
    (text : string) (p : Z) :
  predict m v text = Some p ->
  (is_Some (final_print m v text) <-> 1 <= p <= 4)
  /\ (forall line, final_print m v text = Some line ->
        In line [Prediction "World"; Prediction "Sports"; Prediction "Business";
                 Prediction "Sci/Tec"]%string).
Proof.
  intros Hp. unfold final_print. rewrite Hp. cbn [mbind option_bind].
  assert (Hkeys : forall q : Z,
            ag_news_label !! q
            = if decide (q = 1) then Some "World"%string
              else if decide (q = 2) then Some "Sports"%string
              else if decide (q = 3) then Some "Business"%string
              else if decide (q = 4) then Some "Sci/Tec"%string
              else None).
  { intros q. unfold ag_news_label.
    rewrite !lookup_insert, lookup_singleton.
    repeat case_decide; try lia; reflexivity. }
  rewrite Hkeys. split.
  - repeat case_decide; subst; cbn [mbind option_bind]; split; intros Hx;
      try lia; try (eexists; reflexivity); destruct Hx as [? Hx]; discriminate.
  - intros line. repeat case_decide; cbn [mbind option_bind]; intros Hx;
      try discriminate; apply (inj Some) in Hx; subst line; cbn [In]; tauto.
Qed.

End PredictReturns.

Lemma predict_returns_witness :
  is_Some (predict (new_model 6 3 4 demo_draws) (default demo_vocab (vocab tiny_corpus))
             "the oil")
  <-> tokenizer "the oil" <> [].
Proof.
  apply (predict_returns tiny_corpus); [vm_compute; reflexivity | vm_compute; reflexivity |].
  cbn. lia.
Defined.

Lemma final_print_key_witness :
  is_Some (final_print demo_model demo_vocab "the oil") <-> 1 <= 4 <= 4.
Proof.
  apply (final_print_key demo_model demo_vocab "the oil" 4). vm_compute. reflexivity.
Defined.

(** ** The number of classes and the labels *)

Lemma int_labels_NoDup (k : nat) : NoDup (Py.Int <$> seqZ 1 (Z.of_nat k)).
Proof.
  apply NoDup_fmap_2; [|apply NoDup_seqZ]. intros x y Hxy. now inversion Hxy.
Qed.

Lemma contiguous_labels_count (train_iter : list Sample) (k : nat) :
  (forall s : Sample, s ∈ train_iter -> exists z, s.1 = Py.Int z /\ 1 <= z <= Z.of_nat k) ->
  (forall z : Z, 1 <= z <= Z.of_nat k -> exists text, (Py.Int z, text) ∈ train_iter) ->
  script_num_class train_iter = k.
Proof.
  intros Hin Hall. unfold script_num_class, label_set.
  assert (Hset : (list_to_set (map fst train_iter) : gset Py.value)
                 = list_to_set (Py.Int <$> seqZ 1 (Z.of_nat k))).
  { apply set_eq. intros x. rewrite !elem_of_list_to_set.
    change (map fst train_iter) with (fst <$> train_iter).
    rewrite !list_elem_of_fmap. split.
    - intros (s & -> & Hs). destruct (Hin s Hs) as (z & Hz & Hr).
      exists z. split; [exact Hz|]. apply elem_of_seqZ. lia.
    - intros (z & -> & Hz). apply elem_of_seqZ in Hz.
      destruct (Hall z ltac:(lia)) as (text & Ht).
      exists (Py.Int z, text). split; [reflexivity | exact Ht]. }
  rewrite Hset, size_list_to_set by apply int_labels_NoDup.
  rewrite length_fmap, length_seqZ. lia.
Qed.

(** X13.  The number of classes is the number of distinct labels of the
    training corpus.  When these labels are exactly the integers from 1 to
    [k], it is [k], and the class the label pipeline gives to every sample of
    the corpus is a class index of the model, from 0 to [k - 1]. *)
Theorem num_class_of_contiguous_labels (train_iter : list Sample) (k : nat) :
  (forall s : Sample, s ∈ train_iter -> exists z, s.1 = Py.Int z /\ 1 <= z <= Z.of_nat k) ->
  (forall z : Z, 1 <= z <= Z.of_nat k -> exists text, (Py.Int z, text) ∈ train_iter) ->
  script_num_class train_iter = k
  /\ forall s : Sample, s ∈ train_iter ->
       exists c, label_pipeline s.1 = Some c /\ 0 <= c < Z.of_nat k /\ target_ok k c = true.
Proof.
  intros Hin Hall. split.
  - apply contiguous_labels_count; assumption.
  - intros s Hs. destruct (Hin s Hs) as (z & Hz & Hr).
    exists (z - 1). rewrite Hz. split; [reflexivity|]. split; [lia|].
    unfold target_ok. apply orb_true_iff. left. apply andb_true_iff.
    split; [apply Z.leb_le | apply Z.ltb_lt]; lia.
Qed.

Lemma tiny_corpus_labels :
  (forall s : Sample, s ∈ tiny_corpus -> exists z, s.1 = Py.Int z /\ 1 <= z <= Z.of_nat 4)
  /\ (forall z : Z, 1 <= z <= Z.of_nat 4 -> exists text, (Py.Int z, text) ∈ tiny_corpus).
Proof.
  split.
  - intros s Hs. unfold tiny_corpus in Hs.
    repeat (apply elem_of_cons in Hs as [-> | Hs]; [eexists; split; [reflexivity | cbn; lia]|]).
    apply elem_of_nil in Hs. destruct Hs.
  - intros z Hz.
    assert (Hc : z = 1 \/ z = 2 \/ z = 3 \/ z = 4) by lia.
    destruct Hc as [-> | [-> | [-> | ->]]]; eexists; unfold tiny_corpus;
      repeat (first [apply list_elem_of_here | apply list_elem_of_further]).
Defined.

Lemma num_class_of_contiguous_labels_witness : script_num_class tiny_corpus = 4%nat.
Proof.
  apply (num_class_of_contiguous_labels tiny_corpus 4); apply tiny_corpus_labels.
Defined.

(** ** Labels the loss refuses *)

Lemma for_each_fails {S A : Type} (body : S -> A -> option S) (P : S -> Prop) (x : A) :
  (forall s y s', P s -> body s y = Some s' -> P s') ->
  (forall s, P s -> body s x = None) ->
  forall (l : list A) (s : S), P s -> x ∈ l -> for_each body s l = None.
Proof.
  intros Hstep Hfail. induction l as [|y l IH]; intros s Hs Hx.
  - apply elem_of_nil in Hx. destruct Hx.
  - cbn [for_each]. apply elem_of_cons in Hx as [<- | Hx].
    + now rewrite Hfail.
    + destruct (body s y) as [s1|] eqn:E1; cbn [mbind option_bind]; [|reflexivity].
      apply IH; [|exact Hx]. eapply Hstep; eassumption.
Qed.

Lemma enumerate_elem {A : Type} (l : list A) (x : A) :
  x ∈ l -> exists i : Z, (i, x) ∈ enumerate l.
Proof.
  intros Hx. apply list_elem_of_lookup in Hx as [i Hi].
  exists (Z.of_nat i). apply list_elem_of_lookup. exists i.
  unfold enumerate. rewrite list_lookup_imap, Hi. reflexivity.
Qed.

Section BadLabel.
Context {F : Type} `{Scalar F} `{Autograd F}.

Lemma criterion_refuses (m : TextClassificationModel F) (logits : list (list F))
    (label : list Z) (l : Z) :
  l ∈ label -> target_ok (num_class m) l = false -> criterion m logits label = None.
Proof.
  intros Hl Hbad. unfold criterion.
  assert (Hf : forallb (target_ok (num_class m)) label = false).
  { apply not_true_iff_false. intros Hall. rewrite forallb_forall in Hall.
    apply list_elem_of_In in Hl. rewrite (Hall l Hl) in Hbad. discriminate. }
  rewrite Hf, andb_false_r. reflexivity.
Qed.

(** X14.  A class index the model does not have is not used silently: if a
    batch of the loader has a label that is neither a class index of the
    model nor the ignored index -100 (as the label pipeline yields for a raw
    label outside the expected range), the loss raises, and so do [evaluate],
    which computes the loss although it does not use it, and [train]. *)
Theorem bad_label_raises (epoch : Z) (lr0 : F) (m : TextClassificationModel F)
    (dataloader : list Batch) (label text offsets : list Z) (l : Z) :
  (label, text, offsets) ∈ dataloader ->
  l ∈ label ->
  target_ok (num_class m) l = false ->
  evaluate m dataloader = None /\ train epoch lr0 m dataloader = None.
Proof.
  intros Hb Hl Hbad. destruct (enumerate_elem _ _ Hb) as [i Hi]. split.
  - unfold evaluate.
    rewrite (for_each_fails (evaluate_batch (set_training false m)) (fun _ => True)
               (i, (label, text, offsets))); auto.
    intros [a c] _. unfold evaluate_batch.
    destruct (forward _ text offsets) as [logits|]; cbn [mbind option_bind]; [|reflexivity].
    rewrite (criterion_refuses _ logits label l Hl); [reflexivity | exact Hbad].
  - unfold train.
    rewrite (for_each_fails (train_batch epoch (Z.of_nat (length dataloader)) lr0)
               (fun st => num_class (t_model st) = num_class m)
               (i, (label, text, offsets))); auto.
    + intros s y s' Hs Hy. apply train_batch_shape in Hy as [(_ & _ & Hn) _]. congruence.
    + intros st Hs. unfold train_batch.
      destruct (forward _ text offsets) as [logits|]; cbn [mbind option_bind]; [|reflexivity].
      rewrite (criterion_refuses _ logits label l Hl); [reflexivity|].
      cbn [zero_grad set_grad num_class]. rewrite Hs. exact Hbad.
Qed.

End BadLabel.

Lemma bad_label_raises_witness :
  evaluate demo_model [([0], [1], [0]); ([9], [1; 6], [0])] = None
  /\ train 1 5%Q demo_model [([0], [1], [0]); ([9], [1; 6], [0])] = None.
Proof.
  apply (bad_label_raises 1 5%Q demo_model _ [9] [1; 6] [0] 9).
  - apply list_elem_of_further, list_elem_of_here.
  - apply list_elem_of_here.
  - reflexivity.
Defined.

(** ** The script on its own corpus *)

Section OwnCorpus.
Context {F : Type} `{Scalar F}.

Lemma script_model_shape (train_iter : list Sample) (draws : nat -> F)
    (v : Torchtext.Vocab) (m : TextClassificationModel F) :
  vocab train_iter = Some v ->
  script_model train_iter draws = Some m ->
  Z.of_nat (vocab_size m) = Torchtext.len v
  /\ embed_dim m = emsize
  /\ num_class m = script_num_class train_iter.
Proof.
  intros Hv Hm. unfold script_model in Hm. rewrite Hv in Hm. cbn [mbind option_bind] in Hm.
  apply (inj Some) in Hm. subst m. cbn. repeat split.
  unfold Torchtext.len. lia.
Qed.

(** X15.  The script accepts its own corpus: when the labels of the
    training corpus are exactly the integers from 1 to [k] (with [k] at
    least 1 and within int64), the collator returns on every non-empty batch
    of samples of the corpus, and the model the script builds, with
    [len(vocab)] embedding rows and as many classes as distinct labels,
    accepts the batch: neither an index, nor an offset, nor a label is out of
    range. *)
Theorem script_accepts_own_corpus (train_iter : list Sample) (k : nat) (draws : nat -> F)
    (v : Torchtext.Vocab) (m : TextClassificationModel F) (batch : list Sample) :
  (forall s : Sample, s ∈ train_iter -> exists z, s.1 = Py.Int z /\ 1 <= z <= Z.of_nat k) ->
  (forall z : Z, 1 <= z <= Z.of_nat k -> exists text, (Py.Int z, text) ∈ train_iter) ->
  (0 < k)%nat -> Z.of_nat k <= int64_max ->
  vocab train_iter = Some v ->
  script_model train_iter draws = Some m ->
  batch <> [] ->
  Forall (fun s => s ∈ train_iter) batch ->
  exists labels text offsets,
    collate_batch v batch = Some (labels, text, offsets)
    /\ batch_ok m (labels, text, offsets) = true.
Proof.
  intros Hin Hall Hk Hmax Hv Hm Hne Hsub.
  destruct (script_model_shape train_iter draws v m Hv Hm) as (Hsize & _ & Hnc).
  assert (Hk' : script_num_class train_iter = k)
    by (apply contiguous_labels_count; assumption).
  rewrite Hk' in Hnc.
  destruct (vocab_unk train_iter) as (v' & Hv' & _ & Hd & _).
  rewrite Hv in Hv'. apply (inj Some) in Hv'. subst v'.
  assert (Hlabels : exists labels,
            mapM label_pipeline (map fst batch) = Some labels
            /\ forallb fits_int64 labels = true
            /\ forallb (target_ok k) labels = true).
  { clear Hne. induction Hsub as [|s rest Hs _ IH].
    - exists []. repeat split.
    - destruct IH as (labels & Hls & Hfits & Hoks).
      destruct (Hin s Hs) as (z & Hz & Hr).
      exists (z - 1 :: labels). repeat split.
      + cbn [map]. apply mapM_Some_2. constructor; [|apply mapM_Some_1, Hls].
        rewrite Hz. reflexivity.
      + cbn [forallb]. rewrite Hfits, andb_true_r. unfold fits_int64.
        apply andb_true_iff. unfold int64_min, int64_max in *.
        split; [apply Z.leb_le | apply Z.leb_le]; lia.
      + cbn [forallb]. rewrite Hoks, andb_true_r. unfold target_ok.
        apply orb_true_iff. left. apply andb_true_iff.
        split; [apply Z.leb_le | apply Z.ltb_lt]; lia. }
  destruct Hlabels as (labels & Hls & Hfits & Hoks).
  assert (Hes : mapM (text_pipeline v) (map snd batch)
                = Some (map (fun x => map (fun t => default 0 (Torchtext.stoi v !! t))
                                        (tokenizer x)) (map snd batch))).
  { apply mapM_Some_2. generalize (map snd batch). intros l.
    induction l as [|x l IH]; cbn [map]; constructor; [|exact IH].
    apply lookup_indices_default, Hd. }
  eexists labels, _, _. split.
  - apply (collate_batch_build v batch labels _ Hls Hfits Hes).
    destruct batch; [congruence | discriminate].
  - eapply (collate_batch_valid train_iter v m batch); try eassumption.
    + rewrite Hnc. exact Hk.
    + apply (collate_batch_build v batch labels _ Hls Hfits Hes).
      destruct batch; [congruence | discriminate].
    + rewrite Hnc. exact Hoks.
Qed.

End OwnCorpus.

Lemma script_accepts_own_corpus_witness :
  exists labels text offsets,
    collate_batch (default demo_vocab (vocab tiny_corpus))
      [(Py.Int 4, "oil and bears"%string); (Py.Int 2, "back"%string)]
    = Some (labels, text, offsets)
    /\ batch_ok (default demo_model (script_model tiny_corpus demo_draws))
         (labels, text, offsets) = true.
Proof.
  apply (script_accepts_own_corpus tiny_corpus 4 demo_draws).
  - apply tiny_corpus_labels.
  - apply tiny_corpus_labels.
  - lia.
  - vm_compute. discriminate.
  - vm_compute. reflexivity.
  - vm_compute. reflexivity.
  - discriminate.
  - unfold tiny_corpus.
    repeat constructor; repeat (first [apply list_elem_of_here | apply list_elem_of_further]).
Defined.

(** ** A validation loader without batches *)

Section EmptyValidation.
Context {F : Type} `{Scalar F} `{Autograd F}.

(** X16.  The epoch loop does not survive an empty validation loader: if in
    one of the ten epochs the validation loader yields no batch, [evaluate]
    raises on it whatever the model is (no sample is counted, and it divides
    by the count), and the loop does not return, whatever the model and the
    training batches are: it ends with an exception, that of [evaluate] or
    one that a call raised before. *)
Theorem epoch_loop_empty_validation (train_dataloader valid_dataloader : Z -> list Batch)
    (m : TextClassificationModel F) (e : Z) :
  1 <= e <= EPOCHS ->
  valid_dataloader e = [] ->
  (forall m' : TextClassificationModel F, evaluate m' (valid_dataloader e) = None)
  /\ epoch_loop train_dataloader valid_dataloader (script_init m) = None.
Proof.
  intros He Hv. split; [intros m'; rewrite Hv; reflexivity|]. unfold epoch_loop.
  apply (for_each_fails _ (fun _ => True) e); auto.
  - intros st _. unfold epoch_body.
    destruct (train e (lr st) (model st) (train_dataloader e)) as [[[m1 lines] steps]|];
      cbn [mbind option_bind]; [|reflexivity].
    rewrite Hv. reflexivity.
  - unfold Py.range. apply elem_of_seqZ. unfold EPOCHS in *. lia.
Qed.

End EmptyValidation.

Lemma epoch_loop_empty_validation_witness :
  (forall m' : TextClassificationModel Q, evaluate m' (demo_gap_dataloader 3) = None)
  /\ epoch_loop demo_dataloader demo_gap_dataloader (script_init demo_model) = None.
Proof.
  apply (epoch_loop_empty_validation demo_dataloader demo_gap_dataloader demo_model 3);
    [unfold EPOCHS; lia | reflexivity].
Defined.
